(** * SaaS Landing API: a shallow embedding of [main.py] and [schemas.py]

    The request handlers of [main.py] are embedded as functions over an
    explicit document store. A Python [dict] with string keys is a
    [gmap string value]; a collection is the list of its documents in
    insertion order; a handler that raises is a handler that returns
    [HTTPException] (a deliberate HTTP error) or [Raise] (an exception
    nobody catches). *)

From stdpp Require Import gmap strings list fin_maps sorting lexico pretty.
From Stdlib Require Import Ascii String.

Local Open Scope string_scope.
Local Open Scope list_scope.
Local Open Scope N_scope.

(** ** Python values *)

Module Py.

(** A naive [datetime.datetime]: Python stores it as its calendar fields. *)
Record datetime := mk_datetime {
  year : N; month : N; day : N;
  hour : N; minute : N; second : N; microsecond : N
}.

(** The values a document of this program holds. [VObjectId] is a
    [bson.ObjectId], twelve bytes read as a big-endian number. *)
Inductive value :=
  | VNone
  | VBool (b : bool)
  | VStr (s : string)
  | VObjectId (oid : N)
  | VDatetime (t : datetime)
  | VList (l : list string).

#[global] Instance datetime_eq_dec : EqDecision datetime.
Proof. solve_decision. Defined.

#[global] Instance value_eq_dec : EqDecision value.
Proof. solve_decision. Defined.

(** A Python [dict] with string keys. *)
Abbreviation dict := (gmap string value).

(** [d.get(k)] *)
Definition get (d : dict) (k : string) : value := default VNone (d !! k).

(** Truth value of an object: [None], [False], the empty string and the
    empty list are false. *)
Definition truthy (v : value) : bool :=
  match v with
  | VNone => false
  | VBool b => b
  | VStr s => negb (bool_decide (s = ""))
  | VObjectId _ => true
  | VDatetime _ => true
  | VList l => negb (bool_decide (l = []))
  end.

(** [a or b] *)
Definition or_ (a b : value) : value := if truthy a then a else b.

(** Truth value of a [dict]: false exactly when it is empty. *)
Definition dict_truthy (d : dict) : bool := negb (bool_decide (d = ∅)).

(** *** Formatting *)

Definition hex_digit (n : N) : ascii :=
  match n with
  | 0 => "0" | 1 => "1" | 2 => "2" | 3 => "3" | 4 => "4" | 5 => "5"
  | 6 => "6" | 7 => "7" | 8 => "8" | 9 => "9" | 10 => "a" | 11 => "b"
  | 12 => "c" | 13 => "d" | 14 => "e" | _ => "f"
  end%char.

(** The [w] low hexadecimal digits of [n], most significant first. *)
Fixpoint hex_fixed (w : nat) (n : N) : string :=
  match w with
  | O => ""
  | S w' => hex_fixed w' (n / 16) +:+ String (hex_digit (n mod 16)) ""
  end.

(** ["%0wd" % n] *)
Definition zfill (w : nat) (n : N) : string :=
  let s := pretty n in
  String.concat "" (replicate (w - String.length s) "0") +:+ s.

(** [t.isoformat(sep)]: the fraction is printed only when it is not zero. *)
Definition isoformat_sep (sep : string) (t : datetime) : string :=
  zfill 4 (year t) +:+ "-" +:+ zfill 2 (month t) +:+ "-" +:+ zfill 2 (day t)
  +:+ sep
  +:+ zfill 2 (hour t) +:+ ":" +:+ zfill 2 (minute t) +:+ ":" +:+ zfill 2 (second t)
  +:+ (if decide (microsecond t = 0) then "" else "." +:+ zfill 6 (microsecond t)).

Definition isoformat : datetime → string := isoformat_sep "T".

Definition quote1 : ascii := "'"%char.
Definition quote2 : ascii := ascii_of_nat 34.
Definition backslash : ascii := ascii_of_nat 92.

Definition str_contains (c : ascii) (s : string) : bool :=
  bool_decide (c ∈ String.list_ascii_of_string s).

(** One character of [repr(s)], [q] being the quote chosen for [s]. *)
Definition repr_char (q c : ascii) : string :=
  let n := N_of_ascii c in
  if bool_decide (c = q) || bool_decide (c = backslash) then String backslash (String c "")
  else if decide (n = 9) then String backslash "t"
  else if decide (n = 10) then String backslash "n"
  else if decide (n = 13) then String backslash "r"
  else if bool_decide (n < 32) || bool_decide (n = 127)
    then String backslash ("x" +:+ hex_fixed 2 n)
  else String c "".

(** [repr(s)] of a [str]: single quotes unless [s] has a single quote and
    no double quote. Bytes above 127 belong to printable characters and
    are kept. *)
Definition repr_str (s : string) : string :=
  let q := if str_contains quote1 s && negb (str_contains quote2 s)
           then quote2 else quote1 in
  String q (String.concat "" (repr_char q <$> String.list_ascii_of_string s))
  +:+ String q "".

(** [str(v)] *)
Definition str (v : value) : string :=
  match v with
  | VNone => "None"
  | VBool true => "True"
  | VBool false => "False"
  | VStr s => s
  | VObjectId oid => hex_fixed 24 oid
  | VDatetime t => isoformat_sep " " t
  | VList l => "[" +:+ String.concat ", " (repr_str <$> l) +:+ "]"
  end.

(** *** Ordering, as [list.sort] sees it *)

Definition datetime_fields (t : datetime) : list N :=
  [year t; month t; day t; hour t; minute t; second t; microsecond t].

Definition codes (s : string) : list N := N_of_ascii <$> String.list_ascii_of_string s.

Definition lexico_ltb `{Lexico A, !TrichotomyT (@lexico A _)} (x y : A) : bool :=
  match trichotomyT lexico x y with
  | inleft (left _) => true
  | _ => false
  end.

(** [a < b]; [None] is the [TypeError] of two objects that do not compare. *)
Definition lt (a b : value) : option bool :=
  match a, b with
  | VBool x, VBool y => Some (lexico_ltb x y)
  | VStr x, VStr y => Some (lexico_ltb (codes x) (codes y))
  | VObjectId x, VObjectId y => Some (lexico_ltb x y)
  | VDatetime x, VDatetime y => Some (lexico_ltb (datetime_fields x) (datetime_fields y))
  | VList x, VList y => Some (lexico_ltb (codes <$> x) (codes <$> y))
  | _, _ => None
  end.

End Py.

Import Py.

(** ** Serialization helper *)

(** One turn of the loop of [serialize_doc] over the snapshot
    [list(d.items())]: among the values of this program only a [datetime]
    has an [isoformat] attribute. *)
Definition serialize_step (d : dict) (kv : string * value) : dict :=
  match kv.2 with
  | VDatetime t => <[kv.1 := VStr (isoformat t)]> d
  | _ => d
  end.

Definition serialize_doc (doc : dict) : dict :=
  let d := doc in
  let d := match d !! "_id" with
           | Some v => <["id" := VStr (str v)]> (delete "_id" d)
           | None => d
           end in
  foldl serialize_step d (map_to_list d).

(** What the loop does to one value: a timestamp becomes its ISO-8601
    string, anything else stays. *)
Definition iso_value (v : value) : value :=
  match v with
  | VDatetime t => VStr (isoformat t)
  | _ => v
  end.

(** The reading of "copies all fields and changes nothing else": every
    field but the internal identifier is in the result under its own name,
    its value converted when it is a timestamp. *)
Definition copies_all_fields (doc : dict) : Prop :=
  ∀ k v, k ≠ "_id" → doc !! k = Some v → serialize_doc doc !! k = Some (iso_value v).

(** A document [serialize_doc] has nothing to do on: no internal identifier
    and no timestamp among the values. *)
Definition plain (d : dict) : Prop :=
  d !! "_id" = None ∧ ∀ k t, d !! k ≠ Some (VDatetime t).

(** ** Handlers as computations over the store handle *)

(** How a call ends: it returns, it raises the [HTTPException] the handler
    built, or it raises something nobody catches. *)
Inductive outcome (A : Type) :=
  | Return (a : A)
  | HTTPException (status_code : nat) (detail : string)
  | Raise (exc : string).
Arguments Return {A} a.
Arguments HTTPException {A} status_code detail.
Arguments Raise {A} exc.

(** The database behind the global [db]: the collections with their
    documents in insertion order, the next identifier the server hands out,
    and, when the server cannot be reached, the message every query raises. *)
Record database := mk_database {
  db_name : string;
  db_collections : gmap string (list dict);
  db_next_id : N;
  db_failure : option string
}.

(** A computation reads and writes the global [db], which is [None] when the
    connection was never initialised. An exception leaves the store as it
    was when it was raised. *)
Definition handler (A : Type) : Type := option database → outcome A * option database.

#[global] Instance handler_ret : MRet handler := λ A a db, (Return a, db).
#[global] Instance handler_fmap : FMap handler := λ A B f c db,
  match c db with
  | (Return a, db') => (Return (f a), db')
  | (HTTPException code detail, db') => (HTTPException code detail, db')
  | (Raise e, db') => (Raise e, db')
  end.
#[global] Instance handler_bind : MBind handler := λ A B k c db,
  match c db with
  | (Return a, db') => k a db'
  | (HTTPException code detail, db') => (HTTPException code detail, db')
  | (Raise e, db') => (Raise e, db')
  end.

Definition raise_http {A} (status_code : nat) (detail : string) : handler A :=
  λ db, (HTTPException status_code detail, db).
Definition raise_exc {A} (exc : string) : handler A := λ db, (Raise exc, db).

(** [d[k]] *)
Definition getitem (d : dict) (k : string) : handler value :=
  match d !! k with
  | Some v => mret v
  | None => raise_exc "KeyError"
  end.

(** *** The store client *)

Definition collection (st : database) (name : string) : list dict :=
  default [] (db_collections st !! name).

(** A document matches an equality filter when it has every field of the
    filter with the filter's value. *)
Definition matches (flt doc : dict) : Prop :=
  map_Forall (λ k v, doc !! k = Some v) flt.

#[global] Instance matches_dec flt doc : Decision (matches flt doc).
Proof. unfold matches. apply _. Defined.

(** [db[name]] followed by a query [q] of the collection. *)
Definition query {A} (name : string) (q : list dict → A) : handler A := λ db,
  match db with
  | None => (Raise "TypeError", db)
  | Some st =>
      match db_failure st with
      | Some e => (Raise e, db)
      | None => (Return (q (collection st name)), db)
      end
  end.

(** [db[name].find_one(flt)]: the first match. *)
Definition find_one (name : string) (flt : dict) : handler (option dict) :=
  query name (λ docs, head (filter (matches flt) docs)).

(** Modelled from the spec: [get_documents] of the absent [database.py],
    the adapter's [find] of section 4.1: all documents of the named
    collection that match an equality filter, no pagination. *)
Definition get_documents (name : string) (flt : dict) : handler (list dict) :=
  query name (λ docs, filter (matches flt) docs).

(** The records of [schemas.py] and what they serialize to. *)
Class BaseModel (A : Type) := model_dump : A → dict.

Definition opt_str (o : option string) : value :=
  match o with Some s => VStr s | None => VNone end.
Definition opt_datetime (o : option datetime) : value :=
  match o with Some t => VDatetime t | None => VNone end.

Module User.
Record t := mk {
  name : string;
  email : string;
  password_hash : string;
  salt : string
}.
End User.

Module BlogPost.
Record t := mk {
  title : string;
  slug : string;
  excerpt : option string;
  content : string;
  author : string;
  tags : list string;
  published : bool;
  published_at : option datetime
}.
End BlogPost.

Module ContactMessage.
Record t := mk {
  name : string;
  email : string;
  message : string;
  subject : option string
}.
End ContactMessage.

#[global] Instance User_model : BaseModel User.t := λ u,
  {[ "name" := VStr (User.name u);
     "email" := VStr (User.email u);
     "password_hash" := VStr (User.password_hash u);
     "salt" := VStr (User.salt u) ]}.

#[global] Instance BlogPost_model : BaseModel BlogPost.t := λ p,
  {[ "title" := VStr (BlogPost.title p);
     "slug" := VStr (BlogPost.slug p);
     "excerpt" := opt_str (BlogPost.excerpt p);
     "content" := VStr (BlogPost.content p);
     "author" := VStr (BlogPost.author p);
     "tags" := VList (BlogPost.tags p);
     "published" := VBool (BlogPost.published p);
     "published_at" := opt_datetime (BlogPost.published_at p) ]}.

#[global] Instance ContactMessage_model : BaseModel ContactMessage.t := λ m,
  {[ "name" := VStr (ContactMessage.name m);
     "email" := VStr (ContactMessage.email m);
     "message" := VStr (ContactMessage.message m);
     "subject" := opt_str (ContactMessage.subject m) ]}.

(** [db[name].insert_one(doc)]: the server gives the document its [_id],
    appends it to the collection, and the call returns that identifier. *)
Definition insert_one (st : database) (name : string) (doc : dict) : value * database :=
  let oid := VObjectId (db_next_id st) in
  (oid,
   {| db_name := db_name st;
      db_collections :=
        <[name := collection st name ++ [<["_id" := oid]> doc]]> (db_collections st);
      db_next_id := db_next_id st + 1;
      db_failure := db_failure st |}).

(** Modelled from the spec: [create_document] of the absent [database.py],
    the adapter's [insert] of section 4.1: it serializes the record's fields
    to a document, assigns a new unique identifier, persists the document in
    the named collection and returns the identifier as a string; it fails
    with a StoreUnavailable error if the connection is not initialised. *)
Definition create_document `{BaseModel A} (name : string) (data : A) : handler string :=
  λ db,
  match db with
  | None => (Raise "StoreUnavailable", db)
  | Some st =>
      match db_failure st with
      | Some e => (Raise e, db)
      | None =>
          let '(inserted_id, st') := insert_one st name (model_dump data) in
          (Return (str inserted_id), Some st')
      end
  end.

(** [db.list_collection_names()] *)
Definition list_collection_names (st : database) : string + list string :=
  match db_failure st with
  | Some e => inl e
  | None => inr (map_to_list (db_collections st)).*1
  end.

(** ** Auth *)

Module SignUpPayload.
Record t := mk {
  name : string;
  email : string;
  password_hash : string;
  salt : string
}.
End SignUpPayload.

Module SignInPayload.
Record t := mk {
  email : string;
  password_hash : string
}.
End SignInPayload.

(** Truth value of what [find_one] returned. *)
Definition found (existing : option dict) : bool :=
  match existing with
  | Some d => dict_truthy d
  | None => false
  end.

Definition signup (payload : SignUpPayload.t) : handler dict :=
  existing ← find_one "user" {[ "email" := VStr (SignUpPayload.email payload) ]};
  if found existing then raise_http 400 "Email already registered"
  else
    let user := User.mk (SignUpPayload.name payload) (SignUpPayload.email payload)
                  (SignUpPayload.password_hash payload) (SignUpPayload.salt payload) in
    user_id ← create_document "user" user;
    mret ({[ "id" := VStr user_id;
             "email" := VStr (SignUpPayload.email payload);
             "name" := VStr (SignUpPayload.name payload) ]} : dict).

(** The record [signup] builds from a payload. *)
Definition user_of (payload : SignUpPayload.t) : User.t :=
  User.mk (SignUpPayload.name payload) (SignUpPayload.email payload)
    (SignUpPayload.password_hash payload) (SignUpPayload.salt payload).

Definition signin (payload : SignInPayload.t) : handler dict :=
  existing ← find_one "user" {[ "email" := VStr (SignInPayload.email payload) ]};
  if negb (found existing) then raise_http 404 "User not found"
  else
    let existing := default ∅ existing in
    if bool_decide (get existing "password_hash" ≠ VStr (SignInPayload.password_hash payload))
    then raise_http 401 "Invalid credentials"
    else
      id ← getitem existing "_id";
      email ← getitem existing "email";
      mret ({[ "id" := VStr (str id);
               "email" := email;
               "name" := get existing "name" ]} : dict).

(** ** Blog *)

(** [l.sort(key=key, reverse=True)]: a stable sort into descending order of
    the keys, by [<] on the keys. Placing [x], which came before every
    element of [l], it passes the elements whose key is greater and stops
    at the first that is not, so equal keys keep their order. Two keys that
    do not compare abort the sort. *)
Fixpoint insert_reverse (key : dict → value) (x : dict) (l : list dict)
  : option (list dict) :=
  match l with
  | [] => Some [x]
  | y :: ys =>
      match lt (key x) (key y) with
      | None => None
      | Some true => cons y <$> insert_reverse key x ys
      | Some false => Some (x :: y :: ys)
      end
  end.

Fixpoint sort_reverse (key : dict → value) (l : list dict) : option (list dict) :=
  match l with
  | [] => Some []
  | x :: xs => sort_reverse key xs ≫= insert_reverse key x
  end.

(** The order of two timestamps: field by field, the year first. *)
Definition datetime_lt (a b : datetime) : Prop :=
  lexico (datetime_fields a) (datetime_fields b).

(** [a] is listed before [b] in a newest-first list by [key]: both keys are
    timestamps and the one of [a] is not the earlier. *)
Definition newest_first (key : dict → value) (a b : dict) : Prop :=
  ∃ ta tb, key a = VDatetime ta ∧ key b = VDatetime tb ∧ ¬ datetime_lt ta tb.

(** Every key is a timestamp. *)
Definition timed (key : dict → value) (l : list dict) : Prop :=
  Forall (λ d, ∃ t, key d = VDatetime t) l.

(** [lambda x: x.get("published_at") or x.get("created_at")] *)
Definition sort_key (x : dict) : value :=
  or_ (get x "published_at") (get x "created_at").

(** The stored posts whose [published] field is [True], in stored order. *)
Definition published_posts (st : database) : list dict :=
  filter (λ d : dict, d !! "published" = Some (VBool true)) (collection st "blogpost").

Definition list_posts : handler (list dict) :=
  posts ← get_documents "blogpost" {[ "published" := VBool true ]};
  match sort_reverse sort_key posts with
  | Some posts => mret (serialize_doc <$> posts)
  | None => raise_exc "TypeError"
  end.

Definition get_post (slug : string) : handler dict :=
  post ← find_one "blogpost" {[ "slug" := VStr slug ]};
  if negb (found post) then raise_http 404 "Post not found"
  else mret (serialize_doc (default ∅ post)).

Module CreatePostPayload.
Record t := mk {
  title : string;
  slug : string;
  excerpt : option string;
  content : string;
  author : string;
  tags : option (list string);
  published : bool
}.
End CreatePostPayload.

(** [now] is what [datetime.utcnow()] reads off the clock. *)
Definition create_post (now : datetime) (payload : CreatePostPayload.t) : handler dict :=
  existing ← find_one "blogpost" {[ "slug" := VStr (CreatePostPayload.slug payload) ]};
  if found existing then raise_http 400 "Slug already exists"
  else
    let post := BlogPost.mk
      (CreatePostPayload.title payload)
      (CreatePostPayload.slug payload)
      (CreatePostPayload.excerpt payload)
      (CreatePostPayload.content payload)
      (CreatePostPayload.author payload)
      (default [] (CreatePostPayload.tags payload))
      (CreatePostPayload.published payload)
      (if CreatePostPayload.published payload then Some now else None) in
    post_id ← create_document "blogpost" post;
    mret ({[ "id" := VStr post_id;
             "slug" := VStr (CreatePostPayload.slug payload) ]} : dict).

(** The record [create_post] builds from a payload at time [now]. *)
Definition post_of (now : datetime) (payload : CreatePostPayload.t) : BlogPost.t :=
  BlogPost.mk
    (CreatePostPayload.title payload)
    (CreatePostPayload.slug payload)
    (CreatePostPayload.excerpt payload)
    (CreatePostPayload.content payload)
    (CreatePostPayload.author payload)
    (default [] (CreatePostPayload.tags payload))
    (CreatePostPayload.published payload)
    (if CreatePostPayload.published payload then Some now else None).

(** ** Contact form *)

Module ContactPayload.
Record t := mk {
  name : string;
  email : string;
  message : string;
  subject : option string
}.
End ContactPayload.

Definition message_of (payload : ContactPayload.t) : ContactMessage.t :=
  ContactMessage.mk (ContactPayload.name payload) (ContactPayload.email payload)
    (ContactPayload.message payload) (ContactPayload.subject payload).

Definition submit_contact (payload : ContactPayload.t) : handler dict :=
  let msg := ContactMessage.mk (ContactPayload.name payload) (ContactPayload.email payload)
               (ContactPayload.message payload) (ContactPayload.subject payload) in
  msg_id ← create_document "contactmessage" msg;
  mret ({[ "id" := VStr msg_id; "status" := VStr "received" ]} : dict).

(** ** Stores the handlers can build *)

(** The stores that come about from an empty database by requests to the
    three handlers that write. *)
Inductive reachable : database → Prop :=
  | reachable_empty name next :
      reachable (mk_database name ∅ next None)
  | reachable_signup st payload out st' :
      reachable st → signup payload (Some st) = (out, Some st') → reachable st'
  | reachable_create_post st now payload out st' :
      reachable st → create_post now payload (Some st) = (out, Some st') → reachable st'
  | reachable_submit_contact st payload out st' :
      reachable st → submit_contact payload (Some st) = (out, Some st') → reachable st'.

(** Every stored document carries an identifier the server has already
    handed out. *)
Definition ids_below (st : database) : Prop :=
  ∀ name, Forall (λ d : dict, ∃ n, d !! "_id" = Some (VObjectId n) ∧ n < db_next_id st)
            (collection st name).

(** ** Health check *)

(** A block of statements working on the local [response]: it ends with the
    dictionary as the block left it and the exception, if one escaped. *)
Definition block : Type := dict → dict * option string.

(** [try: body / except Exception as e: handle] *)
Definition try_except (body : block) (handle : string → block) : block := λ response,
  match body response with
  | (response', Some e) => handle e response'
  | (response', None) => (response', None)
  end.

(** [response[k] = v] *)
Definition assign (k : string) (v : value) : block := λ response, (<[k := v]> response, None).

Definition seq (b1 b2 : block) : block := λ response,
  match b1 response with
  | (response', None) => b2 response'
  | (response', Some e) => (response', Some e)
  end.

(** Statements one after the other. *)
Definition stmts (bs : list block) : block :=
  foldr seq (λ response, (response, None)) bs.

(** [s[:n]] *)
Fixpoint str_prefix (n : nat) (s : string) : string :=
  match n, s with
  | S n', String c s' => String c (str_prefix n' s')
  | _, _ => ""
  end.

(** [if os.getenv(name)]: set, and not to the empty string. *)
Definition env_set (getenv : string → option string) (name : string) : bool :=
  match getenv name with
  | Some s => negb (bool_decide (s = ""))
  | None => false
  end.

Definition test_database (getenv : string → option string) : handler dict := λ db,
  let response : dict :=
    {[ "backend" := VStr "✅ Running";
       "database" := VStr "❌ Not Available";
       "database_url" := VNone;
       "database_name" := VNone;
       "connection_status" := VStr "Not Connected";
       "collections" := VList [] ]} in
  let body : block :=
    stmts [
      try_except
        (match db with
         | Some st =>
             stmts [
               assign "database" (VStr "✅ Available");
               assign "database_url" (VStr "✅ Configured");
               assign "database_name" (VStr (db_name st));
               assign "connection_status" (VStr "Connected");
               try_except
                 (λ response,
                    match list_collection_names st with
                    | inl e => (response, Some e)
                    | inr collections =>
                        stmts [
                          assign "collections" (VList (take 10 collections));
                          assign "database" (VStr "✅ Connected & Working")
                        ] response
                    end)
                 (λ e, assign "database"
                         (VStr ("⚠️  Connected but Error: " +:+ str_prefix 50 e)))
             ]
         | None => assign "database" (VStr "⚠️  Available but not initialized")
         end)
        (λ e, assign "database" (VStr ("❌ Error: " +:+ str_prefix 50 e)));
      assign "database_url"
        (VStr (if env_set getenv "DATABASE_URL" then "✅ Set" else "❌ Not Set"));
      assign "database_name"
        (VStr (if env_set getenv "DATABASE_NAME" then "✅ Set" else "❌ Not Set"))
    ] in
  match body response with
  | (response', None) => (Return response', db)
  | (_, Some e) => (Raise e, db)
  end.

(** The first document of a list that has field [k] with value [v]. *)
Definition first_with (k : string) (v : value) (l : list dict) : option dict :=
  head (filter (λ d : dict, d !! k = Some v) l).

(** ** The routes *)

Definition read_root : handler dict :=
  mret ({[ "message" := VStr "SaaS Landing API running" ]} : dict).

(** A request as the routes of [app] tell them apart, with what the handler
    reads besides the store: the payload or path parameter, the clock for
    [POST /blog], the environment for [GET /test]. *)
Inductive request :=
  | GET_root
  | POST_auth_signup (payload : SignUpPayload.t)
  | POST_auth_signin (payload : SignInPayload.t)
  | GET_blog
  | GET_blog_slug (slug : string)
  | POST_blog (now : datetime) (payload : CreatePostPayload.t)
  | POST_contact (payload : ContactPayload.t)
  | GET_test (getenv : string → option string).

(** What a handler returns: one object, or a list of them. *)
Inductive body :=
  | Object (d : dict)
  | Array (l : list dict).

(** The handler [app] routes a request to. *)
Definition app (req : request) : handler body :=
  match req with
  | GET_root => Object <$> read_root
  | POST_auth_signup payload => Object <$> signup payload
  | POST_auth_signin payload => Object <$> signin payload
  | GET_blog => Array <$> list_posts
  | GET_blog_slug slug => Object <$> get_post slug
  | POST_blog now payload => Object <$> create_post now payload
  | POST_contact payload => Object <$> submit_contact payload
  | GET_test getenv => Object <$> test_database getenv
  end.

(** Every document of [l] has field [k] and no two have the same value
    there. *)
Definition unique_field (k : string) (l : list dict) : Prop :=
  Forall (λ d : dict, is_Some (d !! k)) l ∧ NoDup ((λ d : dict, d !! k) <$> l).

(** The requests whose handler talks to the store before anything else. *)
Definition needs_store (req : request) : bool :=
  match req with
  | GET_root | GET_test _ => false
  | _ => true
  end.

(** The store [st'] is [st] with documents added at the end of collections
    and identifiers handed out, and nothing else changed. *)
Definition extends (st st' : database) : Prop :=
  db_name st' = db_name st
  ∧ db_failure st' = db_failure st
  ∧ db_next_id st ≤ db_next_id st'
  ∧ ∀ name, collection st name `prefix_of` collection st' name.

(** The requests whose handler writes to the store. *)
Definition writes (req : request) : bool :=
  match req with
  | POST_auth_signup _ | POST_blog _ _ | POST_contact _ => true
  | _ => false
  end.

(** ** Sample data *)

Module Sample.

Definition store0 : database := mk_database "app" ∅ 1 None.

Definition ann : SignUpPayload.t := SignUpPayload.mk "Ann" "ann@example.org" "h1" "s1".
Definition ann_again : SignUpPayload.t := SignUpPayload.mk "Anna" "ann@example.org" "h2" "s2".

Definition ann_doc : dict :=
  {[ "_id" := VObjectId 1; "name" := VStr "Ann"; "email" := VStr "ann@example.org";
     "password_hash" := VStr "h1"; "salt" := VStr "s1" ]}.

(** The store after Ann signed up. *)
Definition store1 : database :=
  mk_database "app" {[ "user" := [ann_doc] ]} 2 None.

Definition ann_signin : SignInPayload.t := SignInPayload.mk "ann@example.org" "h1".
Definition ann_wrong : SignInPayload.t := SignInPayload.mk "ann@example.org" "h2".
Definition bob_signin : SignInPayload.t := SignInPayload.mk "bob@example.org" "h1".

(** A user document that was stored without a [password_hash]. *)
Definition bob_doc : dict :=
  {[ "_id" := VObjectId 7; "name" := VStr "Bob"; "email" := VStr "bob@example.org" ]}.

Definition store_bob : database :=
  mk_database "app" {[ "user" := [ann_doc; bob_doc] ]} 8 None.

Definition noon : datetime := mk_datetime 2024 5 1 12 0 0 0.
Definition later : datetime := mk_datetime 2024 5 2 9 30 0 250000.

Definition hello : CreatePostPayload.t :=
  CreatePostPayload.mk "Hello" "hello" None "Welcome" "ann" None true.
Definition hello_again : CreatePostPayload.t :=
  CreatePostPayload.mk "Hello once more" "hello" (Some "again") "Other" "bob" (Some ["x"]) false.
Definition draft : CreatePostPayload.t :=
  CreatePostPayload.mk "Draft" "draft" None "Not yet" "ann" (Some ["wip"]) false.

Definition hello_doc : dict :=
  {[ "_id" := VObjectId 1; "title" := VStr "Hello"; "slug" := VStr "hello";
     "excerpt" := VNone; "content" := VStr "Welcome"; "author" := VStr "ann";
     "tags" := VList []; "published" := VBool true;
     "published_at" := VDatetime noon ]}.

(** The store after the post "hello" was created at [noon]. *)
Definition store_hello : database :=
  mk_database "app" {[ "blogpost" := [hello_doc] ]} 2 None.

Definition draft_doc : dict :=
  {[ "_id" := VObjectId 2; "title" := VStr "Draft"; "slug" := VStr "draft";
     "excerpt" := VNone; "content" := VStr "Not yet"; "author" := VStr "ann";
     "tags" := VList ["wip"]; "published" := VBool false;
     "published_at" := VNone ]}.

Definition news_doc : dict :=
  {[ "_id" := VObjectId 3; "title" := VStr "News"; "slug" := VStr "news";
     "excerpt" := VStr "fresh"; "content" := VStr "Read on"; "author" := VStr "bob";
     "tags" := VList []; "published" := VBool true;
     "published_at" := VDatetime later ]}.

(** The store after "hello" at [noon], the draft, and "news" at [later]. *)
Definition store_blog : database :=
  mk_database "app" {[ "blogpost" := [hello_doc; draft_doc; news_doc] ]} 4 None.

(** Two published posts, the second without any timestamp. *)
Definition bare_doc : dict := {[ "_id" := VObjectId 2; "slug" := VStr "bare"; "published" := VBool true ]}.

Definition store_bare : database :=
  mk_database "app" {[ "blogpost" := [hello_doc; bare_doc] ]} 3 None.

Definition contact : ContactPayload.t :=
  ContactPayload.mk "Ann" "ann@example.org" "Hi there" None.

(** A document that has an [id] field of its own next to [_id]. *)
Definition clash_doc : dict := {[ "_id" := VObjectId 10; "id" := VStr "legacy-7" ]}.

End Sample.

(** * Properties *)

(** A closed decidable statement is settled by evaluating its decision
    procedure; a closed equation by evaluating both sides. *)
Ltac by_decide := apply (bool_decide_unpack _); vm_compute; exact I.
Ltac by_eval := vm_compute; reflexivity.

(** ** The store client *)

Lemma matches_singleton (k : string) (v : value) (doc : dict) :
  matches {[ k := v ]} doc ↔ doc !! k = Some v.
Proof.
  unfold matches. rewrite map_Forall_singleton. done.
Qed.

Lemma matches_truthy (k : string) (v : value) (doc : dict) :
  matches {[ k := v ]} doc → dict_truthy doc = true.
Proof.
  rewrite matches_singleton. intros Hk. unfold dict_truthy.
  rewrite bool_decide_eq_false_2; [done|].
  intros ->. by rewrite lookup_empty in Hk.
Qed.

Lemma head_filter_None {A} (P : A → Prop) `{!∀ x, Decision (P x)} (l : list A) :
  Forall (λ x, ¬ P x) l → head (filter P l) = None.
Proof.
  induction 1 as [|x l Hx _ IH]; [done|].
  by rewrite filter_cons_False.
Qed.

Lemma head_filter_Some {A} (P : A → Prop) `{!∀ x, Decision (P x)} (l : list A) :
  Exists P l → ∃ x, head (filter P l) = Some x ∧ P x ∧ x ∈ l.
Proof.
  induction l as [|y l IH]; intros HE; [by inv HE|].
  destruct (decide (P y)) as [Hy|Hy].
  - exists y. rewrite filter_cons_True by done. split_and!; [done|done|set_solver].
  - rewrite filter_cons_False by done.
    destruct IH as (x & ? & ? & ?); [by inv HE|].
    exists x. split_and!; [done|done|set_solver].
Qed.

Lemma head_filter_elem {A} (P : A → Prop) `{!∀ x, Decision (P x)} (l : list A) x :
  head (filter P l) = Some x → P x ∧ x ∈ l.
Proof.
  intros Hh. apply head_Some_elem_of, list_elem_of_filter in Hh. done.
Qed.

Lemma find_one_run (st : database) (name : string) (flt : dict) :
  db_failure st = None →
  find_one name flt (Some st)
  = (Return (head (filter (matches flt) (collection st name))), Some st).
Proof. intros Hup. unfold find_one, query. by rewrite Hup. Qed.

Lemma get_documents_run (st : database) (name : string) (flt : dict) :
  db_failure st = None →
  get_documents name flt (Some st)
  = (Return (filter (matches flt) (collection st name)), Some st).
Proof. intros Hup. unfold get_documents, query. by rewrite Hup. Qed.

Lemma create_document_run `{BaseModel A} (st : database) (name : string) (data : A) :
  db_failure st = None →
  create_document name data (Some st)
  = (Return (str (VObjectId (db_next_id st))),
     Some (insert_one st name (model_dump data)).2).
Proof. intros Hup. unfold create_document. by rewrite Hup. Qed.

Lemma collection_insert_one_eq (st : database) (name : string) (doc : dict) :
  collection (insert_one st name doc).2 name
  = collection st name ++ [<["_id" := VObjectId (db_next_id st)]> doc].
Proof. unfold collection at 1. cbn [insert_one snd db_collections]. by rewrite lookup_insert_eq. Qed.

Lemma collection_insert_one_ne (st : database) (name name' : string) (doc : dict) :
  name ≠ name' →
  collection (insert_one st name doc).2 name' = collection st name'.
Proof.
  intros. unfold collection at 1. cbn [insert_one snd db_collections].
  by rewrite lookup_insert_ne.
Qed.

Lemma db_failure_insert_one (st : database) (name : string) (doc : dict) :
  db_failure (insert_one st name doc).2 = db_failure st.
Proof. done. Qed.

(** ** Auth *)

(** C1. On a working store, a signup whose email no stored user has inserts
    a User document and returns the new identifier with the request's email
    and name; a signup whose email a stored user has is answered with the
    400 conflict and changes nothing, whatever the other fields are. *)
Theorem signup_novel_or_conflict (st : database) (payload : SignUpPayload.t) :
  db_failure st = None →
  let email := VStr (SignUpPayload.email payload) in
  (Forall (λ d : dict, d !! "email" ≠ Some email) (collection st "user") →
   ∃ st',
     signup payload (Some st)
     = (Return {[ "id" := VStr (str (VObjectId (db_next_id st)));
                  "email" := email;
                  "name" := VStr (SignUpPayload.name payload) ]}, Some st')
     ∧ collection st' "user"
       = (collection st "user"
          ++ [<["_id" := VObjectId (db_next_id st)]> (model_dump (user_of payload))])
     ∧ ∀ name, name ≠ "user" → collection st' name = collection st name)
  ∧ (Exists (λ d : dict, d !! "email" = Some email) (collection st "user") →
     signup payload (Some st)
     = (HTTPException 400 "Email already registered", Some st)).
Proof.
  intros Hup email. subst email. split.
  - intros Hnovel.
    eexists. unfold signup, mbind, handler_bind.
    rewrite find_one_run by done.
    rewrite head_filter_None; last first.
    { eapply Forall_impl; [exact Hnovel|]. intros d Hd. by rewrite matches_singleton. }
    cbn [found]. rewrite create_document_run by done.
    split_and!; [done| |].
    + apply collection_insert_one_eq.
    + intros name Hne. by apply collection_insert_one_ne.
  - intros Hexists.
    unfold signup, mbind, handler_bind.
    rewrite find_one_run by done.
    destruct (head_filter_Some
                (matches {[ "email" := VStr (SignUpPayload.email payload) ]})
                (collection st "user")) as (d & -> & Hd & _).
    { eapply Exists_impl; [exact Hexists|]. intros d Hd. by rewrite matches_singleton. }
    cbn [found]. by rewrite (matches_truthy _ _ _ Hd).
Qed.

Lemma signup_novel_or_conflict_witness :
  db_failure Sample.store0 = None
  ∧ signup Sample.ann (Some Sample.store0)
    = (Return {[ "id" := VStr "000000000000000000000001";
                 "email" := VStr "ann@example.org";
                 "name" := VStr "Ann" ]}, Some Sample.store1)
  ∧ signup Sample.ann_again (Some Sample.store1)
    = (HTTPException 400 "Email already registered", Some Sample.store1).
Proof.
  split; [reflexivity|]. split.
  - destruct (signup_novel_or_conflict Sample.store0 Sample.ann eq_refl) as [Hnovel _].
    destruct Hnovel as (st' & Hrun & _); [by_decide|].
    by_eval.
  - destruct (signup_novel_or_conflict Sample.store1 Sample.ann_again eq_refl) as [_ Hdup].
    apply Hdup. by_decide.
Defined.

Lemma Return_inj {A} (a b : A) (s t : database) :
  (Return a, Some s) = (Return b, Some t) → a = b ∧ s = t.
Proof. intros Heq. split; congruence. Qed.

Lemma head_filter_first {A} (P : A → Prop) `{!∀ x, Decision (P x)}
    (before : list A) (x : A) (after : list A) :
  Forall (λ y, ¬ P y) before → P x →
  head (filter P (before ++ x :: after)) = Some x.
Proof.
  intros Hbefore Hx. induction Hbefore as [|y l Hy _ IH]; simpl.
  - by rewrite filter_cons_True.
  - by rewrite filter_cons_False.
Qed.

Lemma find_one_first (st : database) (name k : string) (v : value)
    (before : list dict) (d : dict) (after : list dict) :
  db_failure st = None →
  collection st name = (before ++ d :: after) →
  Forall (λ d' : dict, d' !! k ≠ Some v) before →
  d !! k = Some v →
  find_one name {[ k := v ]} (Some st) = (Return (Some d), Some st).
Proof.
  intros Hup Hsplit Hbefore Hd.
  rewrite find_one_run by done. rewrite Hsplit.
  rewrite head_filter_first; [done| |by apply matches_singleton].
  eapply Forall_impl; [exact Hbefore|]. intros d' Hd'. by rewrite matches_singleton.
Qed.

Lemma find_one_absent (st : database) (name k : string) (v : value) :
  db_failure st = None →
  Forall (λ d : dict, d !! k ≠ Some v) (collection st name) →
  find_one name {[ k := v ]} (Some st) = (Return None, Some st).
Proof.
  intros Hup Hnone. rewrite find_one_run by done.
  rewrite head_filter_None; [done|].
  eapply Forall_impl; [exact Hnone|]. intros d' Hd'. by rewrite matches_singleton.
Qed.

Lemma dict_truthy_lookup (d : dict) (k : string) (v : value) :
  d !! k = Some v → dict_truthy d = true.
Proof.
  intros Hk. unfold dict_truthy. rewrite bool_decide_eq_false_2; [done|].
  intros ->. by rewrite lookup_empty in Hk.
Qed.

(** What [signin] does once the first user with the email is known. *)
Lemma signin_first (st : database) (payload : SignInPayload.t)
    (before : list dict) (d : dict) (after : list dict) :
  db_failure st = None →
  collection st "user" = (before ++ d :: after) →
  Forall (λ d' : dict, d' !! "email" ≠ Some (VStr (SignInPayload.email payload))) before →
  d !! "email" = Some (VStr (SignInPayload.email payload)) →
  signin payload (Some st)
  = if bool_decide (get d "password_hash" ≠ VStr (SignInPayload.password_hash payload))
    then (HTTPException 401 "Invalid credentials", Some st)
    else match d !! "_id" with
         | Some id =>
             (Return {[ "id" := VStr (str id);
                        "email" := VStr (SignInPayload.email payload);
                        "name" := get d "name" ]}, Some st)
         | None => (Raise "KeyError", Some st)
         end.
Proof.
  intros Hup Hsplit Hbefore Hd.
  unfold signin, mbind, handler_bind.
  rewrite (find_one_first _ _ _ _ before d after) by done.
  cbn [found default from_option id negb].
  rewrite (dict_truthy_lookup _ _ _ Hd). cbn [negb].
  case_bool_decide; [reflexivity|].
  unfold getitem. destruct (d !! "_id") as [oid|]; [|reflexivity].
  rewrite Hd. reflexivity.
Qed.

(** C2. On a working store, [signin] answers 404 when no stored user has the
    email; 401 when the first stored user with the email has a
    [password_hash] other than the supplied string; and otherwise returns
    that user's identifier, email and name. After a successful [signup]
    the same email and hash sign in with the very response [signup] gave,
    so with the same identifier. *)
Theorem signin_outcomes (st : database) (payload : SignInPayload.t) :
  db_failure st = None →
  let email := VStr (SignInPayload.email payload) in
  let hash := VStr (SignInPayload.password_hash payload) in
  (Forall (λ d : dict, d !! "email" ≠ Some email) (collection st "user") →
   signin payload (Some st) = (HTTPException 404 "User not found", Some st))
  ∧ (∀ before d after,
       collection st "user" = (before ++ d :: after) →
       Forall (λ d' : dict, d' !! "email" ≠ Some email) before →
       d !! "email" = Some email →
       (d !! "password_hash" ≠ Some hash →
        signin payload (Some st) = (HTTPException 401 "Invalid credentials", Some st))
       ∧ (d !! "password_hash" = Some hash →
          ∀ id, d !! "_id" = Some id →
          signin payload (Some st)
          = (Return {[ "id" := VStr (str id); "email" := email; "name" := get d "name" ]},
             Some st)))
  ∧ (∀ up r st0,
       signup up (Some st0) = (Return r, Some st) →
       SignUpPayload.email up = SignInPayload.email payload →
       SignUpPayload.password_hash up = SignInPayload.password_hash payload →
       signin payload (Some st) = (Return r, Some st)).
Proof.
  intros Hup email hash. subst email hash. split_and!.
  - intros Hnone. unfold signin, mbind, handler_bind.
    by rewrite find_one_absent.
  - intros before d after Hsplit Hbefore Hd. rewrite (signin_first st payload before d after) by done.
    split.
    + intros Hne. rewrite bool_decide_eq_true_2; [done|].
      unfold get. destruct (d !! "password_hash"); simpl; congruence.
    + intros Heq id Hid. rewrite bool_decide_eq_false_2, Hid; [done|].
      unfold get. rewrite Heq. simpl. auto.
  - intros up r st0 Hsignup Hemail Hhash.
    destruct (db_failure st0) as [e|] eqn:Hup0.
    { unfold signup, mbind, handler_bind, find_one, query in Hsignup.
      rewrite Hup0 in Hsignup. discriminate. }
    unfold signup, mbind, handler_bind in Hsignup.
    rewrite find_one_run in Hsignup by done.
    destruct (head (filter _ (collection st0 "user"))) as [d0|] eqn:Hhead.
    { apply head_filter_elem in Hhead as [Hm _].
      cbn [found] in Hsignup. rewrite (matches_truthy _ _ _ Hm) in Hsignup.
      discriminate. }
    cbn [found] in Hsignup. rewrite create_document_run in Hsignup by done.
    unfold mret, handler_ret in Hsignup.
    apply Return_inj in Hsignup as [<- <-].
    rewrite (signin_first _ payload (collection st0 "user")
               (<["_id" := VObjectId (db_next_id st0)]> (model_dump (user_of up))) []).
    + rewrite bool_decide_eq_false_2.
      * rewrite lookup_insert_eq. unfold get, model_dump, User_model, user_of.
        cbn [User.name User.email User.password_hash User.salt].
        rewrite Hemail. done.
      * unfold get, model_dump, User_model, user_of.
        cbn [User.name User.email User.password_hash User.salt].
        rewrite Hhash. intros Hne. by apply Hne.
    + done.
    + apply collection_insert_one_eq.
    + apply Forall_forall. intros d' Hd' Hm.
      assert (Hnil : filter (matches {[ "email" := VStr (SignUpPayload.email up) ]})
                       (collection st0 "user") = []).
      { by destruct (filter _ (collection st0 "user")). }
      assert (Hin : d' ∈ filter (matches {[ "email" := VStr (SignUpPayload.email up) ]})
                       (collection st0 "user")).
      { apply list_elem_of_filter. split; [|done].
        apply matches_singleton. by rewrite Hemail. }
      rewrite Hnil in Hin. by apply not_elem_of_nil in Hin.
    + unfold model_dump, User_model, user_of.
      cbn [User.name User.email User.password_hash User.salt].
      by rewrite <- Hemail.
Qed.

Lemma signin_outcomes_witness :
  db_failure Sample.store1 = None
  ∧ signin Sample.bob_signin (Some Sample.store1)
    = (HTTPException 404 "User not found", Some Sample.store1)
  ∧ signin Sample.ann_wrong (Some Sample.store1)
    = (HTTPException 401 "Invalid credentials", Some Sample.store1)
  ∧ signin Sample.ann_signin (Some Sample.store1)
    = (Return {[ "id" := VStr "000000000000000000000001";
                 "email" := VStr "ann@example.org";
                 "name" := VStr "Ann" ]}, Some Sample.store1).
Proof.
  split; [reflexivity|]. split_and!.
  - destruct (signin_outcomes Sample.store1 Sample.bob_signin eq_refl) as (H404 & _ & _).
    apply H404. by_decide.
  - destruct (signin_outcomes Sample.store1 Sample.ann_wrong eq_refl) as (_ & Hfirst & _).
    destruct (Hfirst [] Sample.ann_doc []) as [H401 _];
      [by_eval|constructor|by_eval|].
    apply H401. by_decide.
  - destruct (signin_outcomes Sample.store1 Sample.ann_signin eq_refl) as (_ & _ & Hround).
    apply (Hround Sample.ann _ Sample.store0); by_eval.
Defined.

(** C10. A stored user that matches the email and has no [password_hash]
    field is answered with 401 whatever hash is supplied: [get] gives
    [None], which no string equals, and nothing is raised. *)
Theorem signin_missing_hash (st : database) (payload : SignInPayload.t)
    (before : list dict) (d : dict) (after : list dict) :
  db_failure st = None →
  collection st "user" = before ++ d :: after →
  Forall (λ d' : dict, d' !! "email" ≠ Some (VStr (SignInPayload.email payload))) before →
  d !! "email" = Some (VStr (SignInPayload.email payload)) →
  d !! "password_hash" = None →
  signin payload (Some st) = (HTTPException 401 "Invalid credentials", Some st).
Proof.
  intros Hup Hsplit Hbefore Hd Hnone.
  rewrite (signin_first st payload before d after) by done.
  rewrite bool_decide_eq_true_2; [done|].
  unfold get. rewrite Hnone. discriminate.
Qed.

Lemma signin_missing_hash_witness :
  signin Sample.bob_signin (Some Sample.store_bob)
  = (HTTPException 401 "Invalid credentials", Some Sample.store_bob).
Proof.
  apply (signin_missing_hash Sample.store_bob Sample.bob_signin [Sample.ann_doc] Sample.bob_doc []).
  - reflexivity.
  - by_eval.
  - by_decide.
  - by_eval.
  - by_eval.
Defined.

(** ** Serialization helper *)

Lemma serialize_loop_lookup (l : list (string * value)) (acc : dict) (k : string) :
  NoDup l.*1 →
  foldl serialize_step acc l !! k
  = match (list_to_map l : dict) !! k with
    | Some (VDatetime t) => Some (VStr (isoformat t))
    | _ => acc !! k
    end.
Proof.
  revert acc. induction l as [|[k0 v0] l IH]; intros acc Hnd.
  - by rewrite list_to_map_nil, lookup_empty.
  - apply NoDup_cons in Hnd as [Hk0 Hnd].
    cbn [foldl]. rewrite IH by done. rewrite list_to_map_cons.
    destruct (decide (k = k0)) as [->|Hne].
    + rewrite lookup_insert_eq.
      rewrite (not_elem_of_list_to_map_1 _ _ Hk0).
      unfold serialize_step. cbn [fst snd].
      destruct v0; try done. by rewrite lookup_insert_eq.
    + rewrite (lookup_insert_ne _ k0 k) by done.
      assert (Hstep : serialize_step acc (k0, v0) !! k = acc !! k).
      { unfold serialize_step. cbn [fst snd].
        destruct v0; try done. by rewrite lookup_insert_ne. }
      by rewrite Hstep.
Qed.

(** The loop over the snapshot of the items is a map over the values. *)
Lemma serialize_loop (d : dict) :
  foldl serialize_step d (map_to_list d) = iso_value <$> d.
Proof.
  apply map_eq. intros k.
  rewrite serialize_loop_lookup by apply NoDup_fst_map_to_list.
  rewrite list_to_map_to_list, lookup_fmap.
  destruct (d !! k) as [[]|]; done.
Qed.

Lemma serialize_doc_unfold (doc : dict) :
  serialize_doc doc
  = iso_value <$> match doc !! "_id" with
                  | Some v => <["id" := VStr (str v)]> (delete "_id" doc)
                  | None => doc
                  end.
Proof. unfold serialize_doc. apply serialize_loop. Qed.

(** A field other than the two identifier names goes through unchanged but
    for the conversion of timestamps. *)
Lemma serialize_doc_other (doc : dict) (k : string) :
  k ≠ "_id" → k ≠ "id" → serialize_doc doc !! k = iso_value <$> doc !! k.
Proof.
  intros H1 H2. rewrite serialize_doc_unfold, lookup_fmap.
  destruct (doc !! "_id"); [|done].
  by rewrite lookup_insert_ne, lookup_delete_ne.
Qed.

(** C7, the claim as it is written fails: a document with its own [id]
    field next to [_id] loses that field to the renamed identifier. *)
Lemma serialize_doc_overwrites_id : ¬ copies_all_fields Sample.clash_doc.
Proof.
  intros Hcopy.
  specialize (Hcopy "id" (VStr "legacy-7")).
  assert (Hout : serialize_doc Sample.clash_doc !! "id"
                 = Some (VStr "00000000000000000000000a")) by by_eval.
  rewrite Hout in Hcopy.
  assert (Hbad : Some (VStr "00000000000000000000000a") = Some (iso_value (VStr "legacy-7"))).
  { apply Hcopy; [discriminate|by_eval]. }
  discriminate Hbad.
Qed.

(** C7, amended. [serialize_doc] is a function of its argument alone. The
    result has no [_id] field; its [id] field is the string form of the
    input's [_id] when there is one, replacing an [id] field of the input,
    and the input's own [id] field otherwise; every other field is copied
    under its name, a timestamp as its ISO-8601 string and any other value
    as it is. So all fields are copied whenever the document does not have
    both [_id] and [id]. *)
Theorem serialize_doc_fields (doc : dict) :
  serialize_doc doc !! "_id" = None
  ∧ serialize_doc doc !! "id"
    = match doc !! "_id" with
      | Some v => Some (VStr (str v))
      | None => iso_value <$> doc !! "id"
      end
  ∧ (∀ k, k ≠ "_id" → k ≠ "id" → serialize_doc doc !! k = iso_value <$> doc !! k)
  ∧ (∀ k, serialize_doc doc !! k = None ↔ k = "_id" ∨ (doc !! k = None ∧ (k ≠ "id" ∨ doc !! "_id" = None)))
  ∧ (doc !! "_id" = None ∨ doc !! "id" = None → copies_all_fields doc).
Proof.
  assert (Hid : serialize_doc doc !! "_id" = None).
  { rewrite serialize_doc_unfold, lookup_fmap.
    destruct (doc !! "_id") eqn:Hd.
    - by rewrite lookup_insert_ne, lookup_delete_eq.
    - by rewrite Hd. }
  assert (Hext : serialize_doc doc !! "id"
                 = match doc !! "_id" with
                   | Some v => Some (VStr (str v))
                   | None => iso_value <$> doc !! "id"
                   end).
  { rewrite serialize_doc_unfold, lookup_fmap.
    destruct (doc !! "_id"); [|done].
    by rewrite lookup_insert_eq. }
  split_and!; [done|done|apply serialize_doc_other| |].
  - intros k. destruct (decide (k = "_id")) as [->|H1].
    { split; [by left|done]. }
    destruct (decide (k = "id")) as [->|H2].
    + rewrite Hext. destruct (doc !! "_id") as [v|].
      * split; [done|]. intros [?|[_ [?|?]]]; done.
      * destruct (doc !! "id"); cbn; split; try done.
        -- intros [?|[? _]]; done.
        -- intros _. right. split; [done|by right].
    + rewrite serialize_doc_other by done.
      destruct (doc !! k); cbn; split; try done.
      * intros [?|[? _]]; done.
      * intros _. right. split; [done|by left].
  - intros Hno k v Hk Hv.
    destruct (decide (k = "id")) as [->|H2].
    + rewrite Hext. destruct Hno as [Hno|Hno].
      * by rewrite Hno, Hv.
      * by rewrite Hno in Hv.
    + by rewrite serialize_doc_other, Hv.
Qed.

(** ** Blog: detail and create *)

Lemma get_post_first (st : database) (slug : string)
    (before : list dict) (d : dict) (after : list dict) :
  db_failure st = None →
  collection st "blogpost" = before ++ d :: after →
  Forall (λ d' : dict, d' !! "slug" ≠ Some (VStr slug)) before →
  d !! "slug" = Some (VStr slug) →
  get_post slug (Some st) = (Return (serialize_doc d), Some st).
Proof.
  intros Hup Hsplit Hbefore Hd.
  unfold get_post, mbind, handler_bind.
  rewrite (find_one_first _ _ _ _ before d after) by done.
  cbn [found default from_option id].
  by rewrite (dict_truthy_lookup _ _ _ Hd).
Qed.

Lemma get_post_absent (st : database) (slug : string) :
  db_failure st = None →
  Forall (λ d : dict, d !! "slug" ≠ Some (VStr slug)) (collection st "blogpost") →
  get_post slug (Some st) = (HTTPException 404 "Post not found", Some st).
Proof.
  intros Hup Hnone. unfold get_post, mbind, handler_bind.
  by rewrite find_one_absent.
Qed.

(** C5. On a working store the detail handler answers 404 when no stored
    post has the slug, and otherwise returns the serialization of the first
    stored post with the slug, whatever its [published] field is. *)
Theorem get_post_by_slug (st : database) (slug : string) :
  db_failure st = None →
  (Forall (λ d : dict, d !! "slug" ≠ Some (VStr slug)) (collection st "blogpost") →
   get_post slug (Some st) = (HTTPException 404 "Post not found", Some st))
  ∧ (∀ before d after,
       collection st "blogpost" = before ++ d :: after →
       Forall (λ d' : dict, d' !! "slug" ≠ Some (VStr slug)) before →
       d !! "slug" = Some (VStr slug) →
       get_post slug (Some st) = (Return (serialize_doc d), Some st)).
Proof.
  intros Hup. split.
  - by apply get_post_absent.
  - intros before d after. by apply get_post_first.
Qed.

Lemma get_post_by_slug_witness :
  get_post "draft" (Some Sample.store_hello)
  = (HTTPException 404 "Post not found", Some Sample.store_hello)
  ∧ get_post "hello" (Some Sample.store_hello)
    = (Return (serialize_doc Sample.hello_doc), Some Sample.store_hello).
Proof.
  destruct (get_post_by_slug Sample.store_hello "draft" eq_refl) as [H404 _].
  destruct (get_post_by_slug Sample.store_hello "hello" eq_refl) as [_ Hfound].
  split.
  - apply H404. by_decide.
  - apply (Hfound [] Sample.hello_doc []); [by_eval|constructor|by_eval].
Defined.

(** The post document [create_post] hands to the store and the store
    completes with the identifier. *)
Lemma create_post_fresh (st : database) (now : datetime) (payload : CreatePostPayload.t) :
  db_failure st = None →
  Forall (λ d : dict, d !! "slug" ≠ Some (VStr (CreatePostPayload.slug payload)))
    (collection st "blogpost") →
  create_post now payload (Some st)
  = (Return {[ "id" := VStr (str (VObjectId (db_next_id st)));
               "slug" := VStr (CreatePostPayload.slug payload) ]},
     Some (insert_one st "blogpost" (model_dump (post_of now payload))).2).
Proof.
  intros Hup Hnovel. unfold create_post, mbind, handler_bind.
  rewrite find_one_absent by done. cbn [found].
  by rewrite create_document_run.
Qed.

Lemma create_post_taken (st : database) (now : datetime) (payload : CreatePostPayload.t) :
  db_failure st = None →
  Exists (λ d : dict, d !! "slug" = Some (VStr (CreatePostPayload.slug payload)))
    (collection st "blogpost") →
  create_post now payload (Some st) = (HTTPException 400 "Slug already exists", Some st).
Proof.
  intros Hup Htaken. unfold create_post, mbind, handler_bind.
  rewrite find_one_run by done.
  destruct (head_filter_Some
              (matches {[ "slug" := VStr (CreatePostPayload.slug payload) ]})
              (collection st "blogpost")) as (d & -> & Hd & _).
  { eapply Exists_impl; [exact Htaken|]. intros d Hd. by rewrite matches_singleton. }
  cbn [found]. by rewrite (matches_truthy _ _ _ Hd).
Qed.

(** The new post is the first one with its slug when the slug was free. *)
Lemma get_post_created (st : database) (slug : string) (doc : dict) :
  db_failure st = None →
  Forall (λ d : dict, d !! "slug" ≠ Some (VStr slug)) (collection st "blogpost") →
  doc !! "slug" = Some (VStr slug) →
  get_post slug (Some (insert_one st "blogpost" doc).2)
  = (Return (serialize_doc (<["_id" := VObjectId (db_next_id st)]> doc)),
     Some (insert_one st "blogpost" doc).2).
Proof.
  intros Hup Hnovel Hslug.
  apply (get_post_first _ slug (collection st "blogpost") _ []); try done.
  - apply collection_insert_one_eq.
  - by rewrite lookup_insert_ne.
Qed.

Lemma post_of_slug (now : datetime) (payload : CreatePostPayload.t) :
  (model_dump (post_of now payload) : dict) !! "slug"
  = Some (VStr (CreatePostPayload.slug payload)).
Proof.
  unfold model_dump, BlogPost_model, post_of. cbn [BlogPost.slug].
  rewrite lookup_insert_ne by done. by rewrite lookup_insert_eq.
Qed.

Lemma post_of_published (now : datetime) (payload : CreatePostPayload.t) :
  (model_dump (post_of now payload) : dict) !! "published"
  = Some (VBool (CreatePostPayload.published payload)).
Proof.
  unfold model_dump, BlogPost_model, post_of. cbn [BlogPost.published].
  do 6 (rewrite lookup_insert_ne by done). by rewrite lookup_insert_eq.
Qed.

Lemma post_of_published_at (now : datetime) (payload : CreatePostPayload.t) :
  (model_dump (post_of now payload) : dict) !! "published_at"
  = Some (if CreatePostPayload.published payload then VDatetime now else VNone).
Proof.
  unfold model_dump, BlogPost_model, post_of. cbn [BlogPost.published_at].
  do 7 (rewrite lookup_insert_ne by done). rewrite lookup_singleton_eq.
  by destruct (CreatePostPayload.published payload).
Qed.

(** C6. Creating a post whose slug a stored post has is answered with the
    400 conflict and the store is the one before the call: the document
    lists are the same, so no second document with the slug exists, and
    the detail handler returns the earlier post as before. *)
Theorem create_post_conflict (st : database) (now : datetime) (payload : CreatePostPayload.t) :
  db_failure st = None →
  Exists (λ d : dict, d !! "slug" = Some (VStr (CreatePostPayload.slug payload)))
    (collection st "blogpost") →
  ∃ db',
    create_post now payload (Some st) = (HTTPException 400 "Slug already exists", db')
    ∧ db' = Some st
    ∧ get_post (CreatePostPayload.slug payload) db'
      = get_post (CreatePostPayload.slug payload) (Some st)
    ∧ ∀ before d after,
        collection st "blogpost" = before ++ d :: after →
        Forall (λ d' : dict, d' !! "slug" ≠ Some (VStr (CreatePostPayload.slug payload))) before →
        d !! "slug" = Some (VStr (CreatePostPayload.slug payload)) →
        get_post (CreatePostPayload.slug payload) db' = (Return (serialize_doc d), db').
Proof.
  intros Hup Htaken. exists (Some st). split_and!; [|done|done|].
  - by apply create_post_taken.
  - intros before d after. by apply get_post_first.
Qed.

Lemma create_post_conflict_witness :
  create_post Sample.later Sample.hello_again (Some Sample.store_hello)
  = (HTTPException 400 "Slug already exists", Some Sample.store_hello)
  ∧ get_post "hello" (Some Sample.store_hello)
    = (Return (serialize_doc Sample.hello_doc), Some Sample.store_hello).
Proof.
  destruct (create_post_conflict Sample.store_hello Sample.later Sample.hello_again eq_refl)
    as (db' & Hrun & -> & _ & Hsame); [by_decide|].
  split; [exact Hrun|].
  apply (Hsame [] Sample.hello_doc []); [by_eval|constructor|by_eval].
Defined.

(** ** Sorting newest first *)

Lemma lexico_ltb_true `{Lexico A, !TrichotomyT (@lexico A _), !StrictOrder (@lexico A _)}
    (x y : A) :
  lexico_ltb x y = true ↔ lexico x y.
Proof.
  unfold lexico_ltb. destruct (trichotomyT lexico x y) as [[Hlt| ->]|Hgt].
  - done.
  - split; [done|]. intros Hxx. destruct (irreflexivity lexico y Hxx).
  - split; [done|]. intros Hlt.
    exfalso. apply (irreflexivity lexico x). by trans y.
Qed.

Lemma lt_datetime (a b : datetime) (r : bool) :
  lt (VDatetime a) (VDatetime b) = Some r ↔ (r = true ↔ datetime_lt a b).
Proof.
  cbn [lt]. unfold datetime_lt. rewrite <- lexico_ltb_true.
  destruct (lexico_ltb _ _), r; split; try done; intros Hr.
  - by destruct Hr as [_ Hr]; specialize (Hr eq_refl).
  - by destruct Hr as [Hr _]; specialize (Hr eq_refl).
Qed.

#[global] Instance datetime_lt_strict : StrictOrder datetime_lt.
Proof.
  split.
  - intros a Ha. by apply (irreflexivity lexico (datetime_fields a)).
  - intros a b c Hab Hbc. unfold datetime_lt in *. by trans (datetime_fields b).
Qed.

(** "Not earlier than" is transitive, timestamps being totally ordered. *)
Lemma datetime_not_lt_trans (a b c : datetime) :
  ¬ datetime_lt a b → ¬ datetime_lt b c → ¬ datetime_lt a c.
Proof.
  unfold datetime_lt. intros Hab Hbc Hac.
  destruct (trichotomyT lexico (datetime_fields a) (datetime_fields b)) as [[?|Heq]|Hba];
    [done| |].
  - rewrite Heq in Hac. done.
  - destruct (trichotomyT lexico (datetime_fields b) (datetime_fields c)) as [[?|Heq]|Hcb];
      [done| |].
    + rewrite <- Heq in Hac. apply (irreflexivity lexico (datetime_fields a)).
      by trans (datetime_fields b).
    + apply (irreflexivity lexico (datetime_fields a)).
      trans (datetime_fields c); [done|]. by trans (datetime_fields b).
Qed.

(** No object is smaller than itself. *)
Lemma lt_irrefl (a : value) : lt a a ≠ Some true.
Proof.
  destruct a as [|b|s|oid|t|l]; cbn [lt]; try done;
    intros [= Hlt]; apply lexico_ltb_true in Hlt;
    exact (irreflexivity lexico _ Hlt).
Qed.

Section sort_reverse.
Variable key : dict → value.

Lemma insert_reverse_perm (x : dict) (l l' : list dict) :
  insert_reverse key x l = Some l' → l' ≡ₚ x :: l.
Proof.
  revert l'. induction l as [|y ys IH]; intros l' Hins; cbn in Hins.
  - by injection Hins as <-.
  - destruct (lt (key x) (key y)) as [[]|]; [|by injection Hins as <-|done].
    destruct (insert_reverse key x ys) as [l''|]; [|done].
    injection Hins as <-. rewrite (IH l'') by done. apply Permutation_swap.
Qed.

Lemma sort_reverse_perm (l l' : list dict) :
  sort_reverse key l = Some l' → l' ≡ₚ l.
Proof.
  revert l'. induction l as [|x xs IH]; intros l' Hsort; cbn in Hsort.
  - by injection Hsort as <-.
  - destruct (sort_reverse key xs) as [l''|]; [|done]. cbn in Hsort.
    rewrite (insert_reverse_perm _ _ _ Hsort). by rewrite (IH l'').
Qed.

Lemma insert_reverse_timed (x : dict) (l : list dict) :
  timed key (x :: l) → is_Some (insert_reverse key x l).
Proof.
  intros Ht. apply Forall_cons in Ht as [[tx Hx] Hl].
  induction Hl as [|y ys [ty Hy] _ IH]; cbn; [done|].
  rewrite Hx, Hy. cbn [lt].
  destruct (lexico_ltb _ _); [|done].
  destruct IH as [l' ->]. done.
Qed.

(** The sort goes through when every key is a timestamp. *)
Lemma sort_reverse_timed (l : list dict) :
  timed key l → is_Some (sort_reverse key l).
Proof.
  induction 1 as [|x xs Hx Hxs [l' IH]]; cbn; [done|].
  rewrite IH. cbn. apply insert_reverse_timed.
  apply Forall_cons. split; [done|].
  unfold timed. rewrite (sort_reverse_perm _ _ IH). done.
Qed.

Lemma newest_first_trans (a b c : dict) :
  newest_first key a b → newest_first key b c → newest_first key a c.
Proof.
  intros (ta & tb & Ha & Hb & Hab) (tb' & tc & Hb' & Hc & Hbc).
  rewrite Hb in Hb'. injection Hb' as <-.
  exists ta, tc. split_and!; [done|done|].
  by apply (datetime_not_lt_trans ta tb tc).
Qed.

Lemma insert_reverse_sorted (x : dict) (l l' : list dict) :
  timed key (x :: l) →
  StronglySorted (newest_first key) l →
  insert_reverse key x l = Some l' →
  StronglySorted (newest_first key) l'.
Proof.
  intros Ht. apply Forall_cons in Ht as [[tx Hx] Hl].
  revert l'. induction l as [|y ys IH]; intros l' Hs Hins; cbn in Hins.
  - injection Hins as <-. repeat constructor.
  - apply Forall_cons in Hl as [[ty Hy] Hys].
    apply StronglySorted_inv in Hs as [Hs Hy_ys].
    destruct (lt (key x) (key y)) as [[]|] eqn:Hlt; [| |done].
    + destruct (insert_reverse key x ys) as [l''|] eqn:Hins'; [|done].
      injection Hins as <-. constructor; [by apply IH|].
      rewrite (insert_reverse_perm _ _ _ Hins'). constructor; [|done].
      exists ty, tx. split_and!; [done|done|].
      rewrite Hx, Hy in Hlt. apply lt_datetime in Hlt.
      intros Hyx. apply (irreflexivity datetime_lt tx).
      trans ty; [by apply Hlt|done].
    + injection Hins as <-.
      assert (Hxy : newest_first key x y).
      { exists tx, ty. split_and!; [done|done|].
        rewrite Hx, Hy in Hlt. apply lt_datetime in Hlt.
        intros Hxy. by apply Hlt in Hxy. }
      constructor; [by constructor|]. constructor; [done|].
      eapply Forall_impl; [exact Hy_ys|]. intros z Hz.
      by apply (newest_first_trans x y z).
Qed.

Lemma sort_reverse_sorted (l l' : list dict) :
  timed key l → sort_reverse key l = Some l' → StronglySorted (newest_first key) l'.
Proof.
  intros Ht. revert l'. induction Ht as [|x xs Hx Hxs IH]; intros l' Hsort; cbn in Hsort.
  - injection Hsort as <-. constructor.
  - destruct (sort_reverse key xs) as [l''|] eqn:Hxs'; [|done]. cbn in Hsort.
    apply (insert_reverse_sorted x l''); [|by apply IH|done].
    apply Forall_cons. split; [done|].
    unfold timed. by rewrite (sort_reverse_perm _ _ Hxs').
Qed.

(** The sort is stable: the posts with one and the same key keep the order
    they had. *)
Lemma insert_reverse_stable (v : value) (x : dict) (l l' : list dict) :
  insert_reverse key x l = Some l' →
  filter (λ d, key d = v) l' = filter (λ d, key d = v) (x :: l).
Proof.
  revert l'. induction l as [|y ys IH]; intros l' Hins; cbn in Hins.
  - by injection Hins as <-.
  - destruct (lt (key x) (key y)) as [[]|] eqn:Hlt; [|by injection Hins as <-|done].
    destruct (insert_reverse key x ys) as [l''|]; [|done].
    injection Hins as <-.
    assert (Hne : key x ≠ key y).
    { intros Heq. rewrite Heq in Hlt. by apply lt_irrefl in Hlt. }
    specialize (IH l'' eq_refl).
    rewrite (filter_cons _ y), IH, !filter_cons.
    repeat case_decide; congruence.
Qed.

Lemma sort_reverse_stable (v : value) (l l' : list dict) :
  sort_reverse key l = Some l' →
  filter (λ d, key d = v) l' = filter (λ d, key d = v) l.
Proof.
  revert l'. induction l as [|x xs IH]; intros l' Hsort; cbn in Hsort.
  - by injection Hsort as <-.
  - destruct (sort_reverse key xs) as [l''|]; [|done]. cbn in Hsort.
    rewrite (insert_reverse_stable _ _ _ _ Hsort), !filter_cons.
    by rewrite (IH l'').
Qed.
End sort_reverse.

(** ** Blog: list *)

Lemma filter_published (l : list dict) :
  filter (matches {[ "published" := VBool true ]}) l
  = filter (λ d : dict, d !! "published" = Some (VBool true)) l.
Proof. apply list_filter_iff. intros d. apply matches_singleton. Qed.

Lemma list_posts_run (st : database) :
  db_failure st = None →
  list_posts (Some st)
  = match sort_reverse sort_key (published_posts st) with
    | Some posts => (Return (serialize_doc <$> posts), Some st)
    | None => (Raise "TypeError", Some st)
    end.
Proof.
  intros Hup. unfold list_posts, mbind, handler_bind.
  rewrite get_documents_run by done. rewrite filter_published.
  fold (published_posts st). by destruct (sort_reverse _ _).
Qed.

(** A post that is not published does not show in [published_posts]. *)
Lemma published_posts_insert_one (st : database) (doc : dict) :
  doc !! "published" ≠ Some (VBool true) →
  published_posts (insert_one st "blogpost" doc).2 = published_posts st.
Proof.
  intros Hdraft. unfold published_posts.
  rewrite collection_insert_one_eq, filter_app.
  rewrite filter_cons_False, filter_nil, app_nil_r; [done|].
  by rewrite lookup_insert_ne.
Qed.

Lemma published_posts_insert_one_published (st : database) (doc : dict) :
  doc !! "published" = Some (VBool true) →
  published_posts (insert_one st "blogpost" doc).2
  = published_posts st ++ [<["_id" := VObjectId (db_next_id st)]> doc].
Proof.
  intros Hpub. unfold published_posts.
  rewrite collection_insert_one_eq, filter_app.
  rewrite filter_cons_True, filter_nil; [done|].
  by rewrite lookup_insert_ne.
Qed.

Lemma sort_key_published_at (d : dict) (t : datetime) :
  d !! "published_at" = Some (VDatetime t) → sort_key d = VDatetime t.
Proof. intros Hd. unfold sort_key, get. by rewrite Hd. Qed.

Lemma sort_key_fallback (d : dict) :
  get d "published_at" = VNone → sort_key d = get d "created_at".
Proof. intros Hd. unfold sort_key. by rewrite Hd. Qed.

(** The posts [create_post] stores keep every published post with a
    timestamp to sort by. *)
Lemma create_post_keeps_timed (st : database) (now : datetime) (payload : CreatePostPayload.t) :
  timed sort_key (published_posts st) →
  timed sort_key
    (published_posts (insert_one st "blogpost" (model_dump (post_of now payload))).2).
Proof.
  intros Ht. destruct (CreatePostPayload.published payload) eqn:Hpub.
  - rewrite published_posts_insert_one_published
      by (by rewrite post_of_published, Hpub).
    apply Forall_app. split; [done|]. constructor; [|constructor].
    exists now. apply sort_key_published_at.
    rewrite lookup_insert_ne by done. by rewrite post_of_published_at, Hpub.
  - rewrite published_posts_insert_one; [done|].
    by rewrite post_of_published, Hpub.
Qed.

(** C4. On a working store whose published posts all have a timestamp to
    sort by, the list handler returns the serializations of exactly the
    posts whose [published] field is [True], the newest first, where the
    time of a post is its [published_at] and, when that is absent, its
    [created_at]; posts of the same time keep their stored order. *)
Theorem list_posts_newest_first (st : database) :
  db_failure st = None →
  timed sort_key (published_posts st) →
  ∃ posts,
    list_posts (Some st) = (Return (serialize_doc <$> posts), Some st)
    ∧ posts ≡ₚ published_posts st
    ∧ (∀ d, d ∈ posts ↔ d ∈ collection st "blogpost" ∧ d !! "published" = Some (VBool true))
    ∧ StronglySorted (newest_first sort_key) posts
    ∧ (∀ v, filter (λ d, sort_key d = v) posts
            = filter (λ d, sort_key d = v) (published_posts st))
    ∧ (∀ d t, d !! "published_at" = Some (VDatetime t) → sort_key d = VDatetime t)
    ∧ (∀ d, get d "published_at" = VNone → sort_key d = get d "created_at").
Proof.
  intros Hup Ht.
  destruct (sort_reverse_timed sort_key _ Ht) as [posts Hsort].
  exists posts. rewrite list_posts_run, Hsort by done.
  pose proof (sort_reverse_perm _ _ _ Hsort) as Hperm.
  split_and!; [done|done| |by eapply sort_reverse_sorted
              |intros v; by apply sort_reverse_stable
              |apply sort_key_published_at|apply sort_key_fallback].
  intros d. rewrite Hperm. unfold published_posts.
  rewrite list_elem_of_filter. tauto.
Qed.

Lemma list_posts_newest_first_witness :
  list_posts (Some Sample.store_blog)
  = (Return [serialize_doc Sample.news_doc; serialize_doc Sample.hello_doc],
     Some Sample.store_blog).
Proof.
  destruct (list_posts_newest_first Sample.store_blog eq_refl) as (posts & Hrun & _).
  - assert (Hpub : published_posts Sample.store_blog = [Sample.hello_doc; Sample.news_doc])
      by by_eval.
    rewrite Hpub. repeat constructor.
    + exists Sample.noon. by_eval.
    + exists Sample.later. by_eval.
  - by_eval.
Defined.

(** ** Blog: what a created post looks like *)

(** C3. On a working store, creating a post whose slug is free stores a
    document whose [published_at] is the current time exactly when the
    [published] flag is true. When the flag is false the [published_at] of
    the stored post is [None], the detail handler returns the post, and the
    list handler answers as it did before the post was created: whatever it
    lists is the serialization of an earlier post whose [published] field
    is [True]. *)
Theorem create_post_published_at (st : database) (now : datetime)
    (payload : CreatePostPayload.t) :
  db_failure st = None →
  Forall (λ d : dict, d !! "slug" ≠ Some (VStr (CreatePostPayload.slug payload)))
    (collection st "blogpost") →
  let doc := <["_id" := VObjectId (db_next_id st)]> (model_dump (post_of now payload)) in
  ∃ st',
    create_post now payload (Some st)
    = (Return {[ "id" := VStr (str (VObjectId (db_next_id st)));
                 "slug" := VStr (CreatePostPayload.slug payload) ]}, Some st')
    ∧ collection st' "blogpost" = collection st "blogpost" ++ [doc]
    ∧ (get doc "published_at" = VDatetime now ↔ CreatePostPayload.published payload = true)
    ∧ (CreatePostPayload.published payload = false →
       get doc "published_at" = VNone
       ∧ doc !! "published" = Some (VBool false)
       ∧ get_post (CreatePostPayload.slug payload) (Some st')
         = (Return (serialize_doc doc), Some st')
       ∧ (list_posts (Some st')).1 = (list_posts (Some st)).1
       ∧ ∀ l, (list_posts (Some st')).1 = Return l →
           Forall (λ r, ∃ d, r = serialize_doc d
                             ∧ d ∈ collection st "blogpost"
                             ∧ d !! "published" = Some (VBool true)) l).
Proof.
  intros Hup Hnovel doc.
  exists (insert_one st "blogpost" (model_dump (post_of now payload))).2.
  assert (Hat : doc !! "published_at"
                = Some (if CreatePostPayload.published payload
                        then VDatetime now else VNone)).
  { subst doc. rewrite lookup_insert_ne by done. apply post_of_published_at. }
  split_and!.
  - by apply create_post_fresh.
  - apply collection_insert_one_eq.
  - unfold get. rewrite Hat.
    destruct (CreatePostPayload.published payload); cbn; split; done.
  - intros Hdraft.
    assert (Hhidden : published_posts
                        (insert_one st "blogpost" (model_dump (post_of now payload))).2
                      = published_posts st).
    { apply published_posts_insert_one. by rewrite post_of_published, Hdraft. }
    split_and!.
    + unfold get. by rewrite Hat, Hdraft.
    + subst doc. rewrite lookup_insert_ne by done.
      by rewrite post_of_published, Hdraft.
    + apply get_post_created; [done|done|apply post_of_slug].
    + rewrite !list_posts_run by done. rewrite Hhidden.
      by destruct (sort_reverse _ _).
    + intros l. rewrite list_posts_run by done. rewrite Hhidden.
      destruct (sort_reverse sort_key (published_posts st)) as [posts|] eqn:Hsort;
        cbn [fst]; [|done].
      intros Hl. injection Hl as <-.
      apply Forall_fmap, Forall_forall. intros d Hd.
      exists d. split; [done|].
      rewrite (sort_reverse_perm _ _ _ Hsort) in Hd.
      unfold published_posts in Hd. by apply list_elem_of_filter in Hd as [? ?].
Qed.

Lemma create_post_published_at_witness :
  (∃ st', create_post Sample.later Sample.draft (Some Sample.store_hello)
          = (Return {[ "id" := VStr "000000000000000000000002";
                       "slug" := VStr "draft" ]}, Some st')
          ∧ get_post "draft" (Some st')
            = (Return (serialize_doc Sample.draft_doc), Some st')
          ∧ (list_posts (Some st')).1 = Return [serialize_doc Sample.hello_doc]).
Proof.
  destruct (create_post_published_at Sample.store_hello Sample.later Sample.draft eq_refl)
    as (st' & Hrun & _ & _ & Hdraft); [by_decide|].
  destruct (Hdraft eq_refl) as (_ & _ & Hget & Hlist & _).
  exists st'. split_and!; [exact Hrun| |].
  - etrans; [exact Hget|]. do 2 f_equal.
  - etrans; [exact Hlist|]. by_eval.
Defined.

(** C9. The record [create_post] builds always has a [published_at] field,
    and so has the stored document: the current time when [published] is
    true and an explicit [None] when it is false. The detail handler's
    answer for a post created unpublished therefore has the key
    [published_at], with the value [None]. *)
Theorem published_at_field_present (st : database) (now : datetime)
    (payload : CreatePostPayload.t) :
  db_failure st = None →
  Forall (λ d : dict, d !! "slug" ≠ Some (VStr (CreatePostPayload.slug payload)))
    (collection st "blogpost") →
  let at_ := if CreatePostPayload.published payload then VDatetime now else VNone in
  (model_dump (post_of now payload) : dict) !! "published_at" = Some at_
  ∧ ∃ st' doc,
      create_post now payload (Some st)
      = (Return {[ "id" := VStr (str (VObjectId (db_next_id st)));
                   "slug" := VStr (CreatePostPayload.slug payload) ]}, Some st')
      ∧ collection st' "blogpost" = collection st "blogpost" ++ [doc]
      ∧ doc !! "published_at" = Some at_
      ∧ (CreatePostPayload.published payload = false →
         ∃ r, get_post (CreatePostPayload.slug payload) (Some st') = (Return r, Some st')
              ∧ r !! "published_at" = Some VNone).
Proof.
  intros Hup Hnovel at_. split; [apply post_of_published_at|].
  exists (insert_one st "blogpost" (model_dump (post_of now payload))).2,
         (<["_id" := VObjectId (db_next_id st)]> (model_dump (post_of now payload))).
  assert (Hat : (<["_id" := VObjectId (db_next_id st)]> (model_dump (post_of now payload)) : dict)
                  !! "published_at" = Some at_).
  { rewrite lookup_insert_ne by done. apply post_of_published_at. }
  split_and!.
  - by apply create_post_fresh.
  - apply collection_insert_one_eq.
  - done.
  - intros Hdraft. eexists. split.
    + apply get_post_created; [done|done|apply post_of_slug].
    + rewrite serialize_doc_other by done. rewrite Hat.
      subst at_. by rewrite Hdraft.
Qed.

Lemma published_at_field_present_witness :
  (model_dump (post_of Sample.later Sample.draft) : dict) !! "published_at" = Some VNone
  ∧ (model_dump (post_of Sample.later Sample.hello) : dict) !! "published_at"
    = Some (VDatetime Sample.later)
  ∧ ∃ st' r, get_post "draft" (Some st') = (Return r, Some st')
             ∧ r !! "published_at" = Some VNone.
Proof.
  destruct (published_at_field_present Sample.store_hello Sample.later Sample.draft eq_refl)
    as (Hrec & st' & doc & _ & _ & _ & Hdraft); [by_decide|].
  destruct (published_at_field_present Sample.store0 Sample.later Sample.hello eq_refl)
    as (Hrec' & _); [by_decide|].
  destruct (Hdraft eq_refl) as (r & Hget & Hr).
  split_and!; [exact Hrec|exact Hrec'|].
  by exists st', r.
Defined.

(** ** Health check *)

Lemma str_prefix_length (n : nat) (s : string) :
  (String.length (str_prefix n s) ≤ n)%nat.
Proof.
  revert s. induction n as [|n IH]; intros [|c s]; cbn; try lia.
  specialize (IH s). lia.
Qed.

Lemma str_prefix_short (n : nat) (s : string) :
  (String.length s ≤ n)%nat → str_prefix n s = s.
Proof.
  revert s. induction n as [|n IH]; intros [|c s]; cbn; try done; try lia.
  intros Hlen. rewrite IH; [done|lia].
Qed.

(** C8. The health handler returns a diagnostic object for every state of
    the store handle and every environment, and leaves the handle alone.
    Without a connection object it says so; with one whose query works it
    reports the first ten collection names at most; with one whose query
    raises it reports no collection and turns the message, cut to fifty
    characters, into the diagnostic string. *)
Theorem test_database_never_fails (getenv : string → option string) (db : option database) :
  ∃ response names,
    test_database getenv db = (Return response, db)
    ∧ response !! "backend" = Some (VStr "✅ Running")
    ∧ response !! "collections" = Some (VList names)
    ∧ (List.length names ≤ 10)%nat
    ∧ (db = None →
       names = []
       ∧ response !! "connection_status" = Some (VStr "Not Connected")
       ∧ response !! "database" = Some (VStr "⚠️  Available but not initialized"))
    ∧ (∀ st collections,
         db = Some st → list_collection_names st = inr collections →
         names = take 10 collections
         ∧ response !! "connection_status" = Some (VStr "Connected")
         ∧ response !! "database" = Some (VStr "✅ Connected & Working"))
    ∧ (∀ st e,
         db = Some st → list_collection_names st = inl e →
         names = []
         ∧ response !! "connection_status" = Some (VStr "Connected")
         ∧ response !! "database"
           = Some (VStr ("⚠️  Connected but Error: " +:+ str_prefix 50 e))
         ∧ (String.length (str_prefix 50 e) ≤ 50)%nat).
Proof.
  destruct db as [st|]; unfold test_database.
  - destruct (list_collection_names st) as [e|collections] eqn:Hq;
      cbn [stmts foldr seq assign try_except].
    + eexists _, []. split_and!; [reflexivity|by_eval|by_eval|cbn; lia|done| |].
      * intros st' cs [= <-]. by rewrite Hq.
      * intros st' e' [= <-]. rewrite Hq. intros [= <-].
        split_and!; [done|by_eval|by_eval|apply str_prefix_length].
    + eexists _, (take 10 collections).
      split_and!; [reflexivity|by_eval|by_eval|rewrite length_take; lia|done| |].
      * intros st' cs [= <-]. rewrite Hq. intros [= <-].
        split_and!; [done|by_eval|by_eval].
      * intros st' e' [= <-]. by rewrite Hq.
  - cbn [stmts foldr seq assign try_except].
    eexists _, []. split_and!; [reflexivity|by_eval|by_eval|cbn; lia| |done|done].
    intros _. split_and!; [done|by_eval|by_eval].
Qed.

(** ** Invariants of the stores the handlers build *)

Lemma snd_Some_inj {A} (o1 o2 : outcome A) (s1 s2 : database) :
  (o1, Some s1) = (o2, Some s2) → s1 = s2.
Proof. congruence. Qed.

Lemma create_document_effect `{BaseModel A} (st st' : database) (name : string) (data : A)
    (out : outcome string) :
  create_document name data (Some st) = (out, Some st') →
  st' = st ∨ st' = (insert_one st name (model_dump data)).2.
Proof.
  destruct (db_failure st) as [e|] eqn:Hup.
  - unfold create_document. rewrite Hup. intros Heq.
    apply snd_Some_inj in Heq as <-. by left.
  - rewrite create_document_run by done. intros Heq.
    apply snd_Some_inj in Heq as <-. by right.
Qed.

Lemma find_one_effect (st : database) (name : string) (flt : dict) :
  ∃ out, find_one name flt (Some st) = (out, Some st).
Proof. unfold find_one, query. destruct (db_failure st); eauto. Qed.

(** What a handler that checks and then inserts does to the store. *)
Lemma check_then_insert_effect `{BaseModel A} (st st' : database) (name : string)
    (flt : dict) (code : nat) (detail : string) (data : A) (reply : string → dict)
    (out : outcome dict) :
  (existing ← find_one name flt;
   if found existing then raise_http code detail
   else (new_id ← create_document name data; mret (reply new_id))) (Some st)
  = (out, Some st') →
  st' = st ∨ st' = (insert_one st name (model_dump data)).2.
Proof.
  unfold mbind, handler_bind.
  destruct (find_one_effect st name flt) as [[existing| |] ->].
  - destruct (found existing).
    + intros Heq. apply snd_Some_inj in Heq as <-. by left.
    + destruct (create_document name data (Some st)) as [out' db'] eqn:Hdoc.
      intros Hrun.
      assert (db' = Some st') as ->.
      { destruct out'; unfold mret, handler_ret in Hrun; congruence. }
      by apply create_document_effect in Hdoc.
  - intros Heq. apply snd_Some_inj in Heq as <-. by left.
  - intros Heq. apply snd_Some_inj in Heq as <-. by left.
Qed.

Lemma signup_effect (st st' : database) (payload : SignUpPayload.t) (out : outcome dict) :
  signup payload (Some st) = (out, Some st') →
  st' = st ∨ st' = (insert_one st "user" (model_dump (user_of payload))).2.
Proof. apply check_then_insert_effect. Qed.

Lemma create_post_effect (st st' : database) (now : datetime) (payload : CreatePostPayload.t)
    (out : outcome dict) :
  create_post now payload (Some st) = (out, Some st') →
  st' = st ∨ st' = (insert_one st "blogpost" (model_dump (post_of now payload))).2.
Proof. apply check_then_insert_effect. Qed.

Lemma submit_contact_effect (st st' : database) (payload : ContactPayload.t)
    (out : outcome dict) :
  submit_contact payload (Some st) = (out, Some st') →
  st' = st ∨ st' = (insert_one st "contactmessage" (model_dump (message_of payload))).2.
Proof.
  unfold submit_contact, mbind, handler_bind.
  destruct (create_document "contactmessage" _ (Some st)) as [out' db'] eqn:Hdoc.
  intros Hrun.
  assert (db' = Some st') as ->.
  { destruct out'; unfold mret, handler_ret in Hrun; congruence. }
  by apply create_document_effect in Hdoc.
Qed.




(** The identifier [insert_one] assigns is new: no stored document has it. *)
Lemma insert_one_fresh (st : database) (name : string) :
  ids_below st →
  Forall (λ d : dict, d !! "_id" ≠ Some (VObjectId (db_next_id st))) (collection st name).
Proof.
  intros Hids. eapply Forall_impl; [apply Hids|].
  cbn. intros d (n & -> & Hn) [= ->]. lia.
Qed.


(** Without a timestamp on two published posts the keys do not compare and
    the list handler raises. *)
Example list_posts_untimed_raises :
  list_posts (Some (mk_database "app"
                      {[ "blogpost" := [ {[ "_id" := VObjectId 1; "published" := VBool true ]};
                                         {[ "_id" := VObjectId 2; "published" := VBool true ]} ] ]}
                      3 None))
  = (Raise "TypeError",
     Some (mk_database "app"
             {[ "blogpost" := [ {[ "_id" := VObjectId 1; "published" := VBool true ]};
                                {[ "_id" := VObjectId 2; "published" := VBool true ]} ] ]}
             3 None)).
Proof. by_eval. Qed.

(** * More of the handlers *)

(** ** What each handler does, case by case *)

Lemma find_one_first_with (st : database) (name k : string) (v : value) :
  db_failure st = None →
  find_one name {[ k := v ]} (Some st)
  = (Return (first_with k v (collection st name)), Some st).
Proof.
  intros Hup. rewrite find_one_run by done. unfold first_with.
  do 3 f_equal. apply list_filter_iff. intros d. apply matches_singleton.
Qed.

Lemma first_with_Some (k : string) (v : value) (l : list dict) (d : dict) :
  first_with k v l = Some d →
  ∃ before after,
    l = before ++ d :: after
    ∧ Forall (λ d' : dict, d' !! k ≠ Some v) before
    ∧ d !! k = Some v.
Proof.
  unfold first_with. induction l as [|y l IH]; [done|].
  rewrite filter_cons. case_decide as Hy.
  - intros [= ->]. exists [], l. split_and!; [done|constructor|done].
  - intros Hd. destruct (IH Hd) as (before & after & -> & Hbefore & Hk).
    exists (y :: before), after. split_and!; [done|by constructor|done].
Qed.

Lemma first_with_None (k : string) (v : value) (l : list dict) :
  first_with k v l = None ↔ Forall (λ d : dict, d !! k ≠ Some v) l.
Proof.
  unfold first_with. split.
  - intros Hnone. apply Forall_forall. intros d Hd Hk.
    assert (Hin : d ∈ filter (λ d : dict, d !! k = Some v) l)
      by by apply list_elem_of_filter.
    destruct (filter _ l); [by apply not_elem_of_nil in Hin|done].
  - apply head_filter_None.
Qed.

(** A handler that looks a key up and inserts when it is free. *)
Lemma check_then_insert_run `{BaseModel A} (name k : string) (v : value) (code : nat)
    (detail : string) (data : A) (reply : string → dict) (db : option database) :
  (existing ← find_one name {[ k := v ]};
   if found existing then raise_http code detail
   else (new_id ← create_document name data; mret (reply new_id))) db
  = match db with
    | None => (Raise "TypeError", None)
    | Some st =>
        match db_failure st with
        | Some e => (Raise e, Some st)
        | None =>
            match first_with k v (collection st name) with
            | Some _ => (HTTPException code detail, Some st)
            | None =>
                (Return (reply (str (VObjectId (db_next_id st)))),
                 Some (insert_one st name (model_dump data)).2)
            end
        end
    end.
Proof.
  destruct db as [st|]; [|reflexivity].
  destruct (db_failure st) as [e|] eqn:Hup.
  { unfold mbind, handler_bind, find_one, query. by rewrite Hup. }
  unfold mbind, handler_bind. rewrite find_one_first_with by done.
  destruct (first_with k v (collection st name)) as [d|] eqn:Hfirst.
  - apply first_with_Some in Hfirst as (_ & _ & _ & _ & Hd).
    cbn [found]. by rewrite (dict_truthy_lookup _ _ _ Hd).
  - cbn [found]. by rewrite create_document_run.
Qed.

Lemma signup_run (payload : SignUpPayload.t) (db : option database) :
  signup payload db
  = match db with
    | None => (Raise "TypeError", None)
    | Some st =>
        match db_failure st with
        | Some e => (Raise e, Some st)
        | None =>
            match first_with "email" (VStr (SignUpPayload.email payload))
                    (collection st "user") with
            | Some _ => (HTTPException 400 "Email already registered", Some st)
            | None =>
                (Return {[ "id" := VStr (str (VObjectId (db_next_id st)));
                           "email" := VStr (SignUpPayload.email payload);
                           "name" := VStr (SignUpPayload.name payload) ]},
                 Some (insert_one st "user" (model_dump (user_of payload))).2)
            end
        end
    end.
Proof.
  apply (check_then_insert_run "user" "email" _ 400 "Email already registered"
           (user_of payload)
           (λ user_id, {[ "id" := VStr user_id;
                          "email" := VStr (SignUpPayload.email payload);
                          "name" := VStr (SignUpPayload.name payload) ]})).
Qed.

Lemma create_post_run (now : datetime) (payload : CreatePostPayload.t)
    (db : option database) :
  create_post now payload db
  = match db with
    | None => (Raise "TypeError", None)
    | Some st =>
        match db_failure st with
        | Some e => (Raise e, Some st)
        | None =>
            match first_with "slug" (VStr (CreatePostPayload.slug payload))
                    (collection st "blogpost") with
            | Some _ => (HTTPException 400 "Slug already exists", Some st)
            | None =>
                (Return {[ "id" := VStr (str (VObjectId (db_next_id st)));
                           "slug" := VStr (CreatePostPayload.slug payload) ]},
                 Some (insert_one st "blogpost" (model_dump (post_of now payload))).2)
            end
        end
    end.
Proof.
  apply (check_then_insert_run "blogpost" "slug" _ 400 "Slug already exists"
           (post_of now payload)
           (λ post_id, {[ "id" := VStr post_id;
                          "slug" := VStr (CreatePostPayload.slug payload) ]})).
Qed.

Lemma submit_contact_run (payload : ContactPayload.t) (db : option database) :
  submit_contact payload db
  = match db with
    | None => (Raise "StoreUnavailable", None)
    | Some st =>
        match db_failure st with
        | Some e => (Raise e, Some st)
        | None =>
            (Return {[ "id" := VStr (str (VObjectId (db_next_id st)));
                       "status" := VStr "received" ]},
             Some (insert_one st "contactmessage" (model_dump (message_of payload))).2)
        end
    end.
Proof.
  destruct db as [st|]; [|reflexivity].
  unfold submit_contact, mbind, handler_bind.
  destruct (db_failure st) as [e|] eqn:Hup.
  - unfold create_document. by rewrite Hup.
  - by rewrite create_document_run.
Qed.

Lemma signin_run (payload : SignInPayload.t) (db : option database) :
  signin payload db
  = match db with
    | None => (Raise "TypeError", None)
    | Some st =>
        match db_failure st with
        | Some e => (Raise e, Some st)
        | None =>
            match first_with "email" (VStr (SignInPayload.email payload))
                    (collection st "user") with
            | None => (HTTPException 404 "User not found", Some st)
            | Some d =>
                if bool_decide (get d "password_hash"
                                ≠ VStr (SignInPayload.password_hash payload))
                then (HTTPException 401 "Invalid credentials", Some st)
                else match d !! "_id" with
                     | Some id =>
                         (Return {[ "id" := VStr (str id);
                                    "email" := VStr (SignInPayload.email payload);
                                    "name" := get d "name" ]}, Some st)
                     | None => (Raise "KeyError", Some st)
                     end
            end
        end
    end.
Proof.
  destruct db as [st|]; [|reflexivity].
  destruct (db_failure st) as [e|] eqn:Hup.
  { unfold signin, mbind, handler_bind, find_one, query. by rewrite Hup. }
  destruct (first_with _ _ _) as [d|] eqn:Hfirst.
  - apply first_with_Some in Hfirst as (before & after & Hsplit & Hbefore & Hd).
    by apply (signin_first st payload before d after).
  - apply first_with_None in Hfirst.
    unfold signin, mbind, handler_bind. by rewrite find_one_absent.
Qed.

Lemma get_post_run (slug : string) (db : option database) :
  get_post slug db
  = match db with
    | None => (Raise "TypeError", None)
    | Some st =>
        match db_failure st with
        | Some e => (Raise e, Some st)
        | None =>
            match first_with "slug" (VStr slug) (collection st "blogpost") with
            | None => (HTTPException 404 "Post not found", Some st)
            | Some d => (Return (serialize_doc d), Some st)
            end
        end
    end.
Proof.
  destruct db as [st|]; [|reflexivity].
  destruct (db_failure st) as [e|] eqn:Hup.
  { unfold get_post, mbind, handler_bind, find_one, query. by rewrite Hup. }
  destruct (first_with _ _ _) as [d|] eqn:Hfirst.
  - apply first_with_Some in Hfirst as (before & after & Hsplit & Hbefore & Hd).
    by apply (get_post_first st slug before d after).
  - apply first_with_None in Hfirst. by apply get_post_absent.
Qed.

Lemma list_posts_cases (db : option database) :
  list_posts db
  = match db with
    | None => (Raise "TypeError", None)
    | Some st =>
        match db_failure st with
        | Some e => (Raise e, Some st)
        | None =>
            match sort_reverse sort_key (published_posts st) with
            | Some posts => (Return (serialize_doc <$> posts), Some st)
            | None => (Raise "TypeError", Some st)
            end
        end
    end.
Proof.
  destruct db as [st|]; [|reflexivity].
  destruct (db_failure st) as [e|] eqn:Hup.
  - unfold list_posts, mbind, handler_bind, get_documents, query. by rewrite Hup.
  - by apply list_posts_run.
Qed.

Lemma test_database_returns (getenv : string → option string) (db : option database) :
  ∃ response, test_database getenv db = (Return response, db).
Proof.
  unfold test_database. destruct db as [st|].
  - destruct (list_collection_names st);
      cbn [stmts foldr seq assign try_except]; eauto.
  - cbn [stmts foldr seq assign try_except]. eauto.
Qed.

(** ** Requests to the routes *)

(** Unfolds a routed request into the cases of its handler. *)
Ltac route db :=
  cbn [app]; unfold fmap, handler_fmap, read_root, mret, handler_ret;
  rewrite ?signup_run, ?signin_run, ?list_posts_cases, ?get_post_run,
    ?create_post_run, ?submit_contact_run;
  try match goal with
      | |- context [test_database ?getenv db] =>
          let response := fresh "response" in
          let Hrun := fresh "Hrun" in
          destruct (test_database_returns getenv db) as [response Hrun];
          rewrite Hrun
      end.

(** A request to a route that does not write ([GET /], [POST /auth/signin],
    [GET /blog], [GET /blog/{slug}], [GET /test]) leaves the store handle as
    it was, whatever the handle and the outcome are. *)
Theorem app_reads_keep_store (req : request) (db : option database) :
  writes req = false → (app req db).2 = db.
Proof.
  intros Hread. destruct req; try discriminate Hread; route db; try done.
  - destruct db as [st|]; [|done]. destruct (db_failure st); [done|].
    destruct (first_with _ _ _) as [d|]; [|done].
    case_bool_decide; [done|]. by destruct (d !! "_id").
  - destruct db as [st|]; [|done]. destruct (db_failure st); [done|].
    by destruct (sort_reverse _ _).
  - destruct db as [st|]; [|done]. destruct (db_failure st); [done|].
    by destruct (first_with _ _ _).
Qed.

Lemma app_reads_keep_store_witness :
  writes (POST_auth_signin Sample.ann_wrong) = false
  ∧ (app (POST_auth_signin Sample.ann_wrong) (Some Sample.store1)).2 = Some Sample.store1
  ∧ (app GET_blog (Some Sample.store_blog)).2 = Some Sample.store_blog.
Proof.
  split; [reflexivity|]. split.
  - apply (app_reads_keep_store (POST_auth_signin Sample.ann_wrong)). reflexivity.
  - apply (app_reads_keep_store GET_blog). reflexivity.
Defined.

Lemma extends_refl (st : database) : extends st st.
Proof. split_and!; [done|done|lia|done]. Qed.

Lemma extends_insert_one (st : database) (name : string) (doc : dict) :
  extends st (insert_one st name doc).2.
Proof.
  split_and!; [done|done|cbn; lia|].
  intros name'. destruct (decide (name = name')) as [<-|Hne].
  - rewrite collection_insert_one_eq. by apply prefix_app_r.
  - by rewrite collection_insert_one_ne.
Qed.

(** A request that does not return, because the handler raised an HTTP
    error or something was raised that nobody caught, leaves the store
    handle as it was: whatever is written is written by a request that
    succeeds. *)
Theorem app_failure_changes_nothing (req : request) (db db' : option database)
    (out : outcome body) :
  app req db = (out, db') → (∀ b, out ≠ Return b) → db' = db.
Proof.
  intros Hrun Hfail. revert Hrun.
  assert (Hret : ∀ b s, (Return b, s) = (out, db') → db' = db).
  { intros b s [= <- _]. by destruct (Hfail b). }
  assert (Hkeep : ∀ o, (o, db) = (out, db') → db' = db).
  { by intros o [= _ <-]. }
  destruct req; route db; eauto.
  - destruct db as [st|]; [|eauto]. destruct (db_failure st); [eauto|].
    destruct (first_with _ _ _); eauto.
  - destruct db as [st|]; [|eauto]. destruct (db_failure st); [eauto|].
    destruct (first_with _ _ _) as [d|]; [|eauto].
    case_bool_decide; [eauto|]. destruct (d !! "_id"); eauto.
  - destruct db as [st|]; [|eauto]. destruct (db_failure st); [eauto|].
    destruct (sort_reverse _ _); eauto.
  - destruct db as [st|]; [|eauto]. destruct (db_failure st); [eauto|].
    destruct (first_with _ _ _); eauto.
  - destruct db as [st|]; [|eauto]. destruct (db_failure st); [eauto|].
    destruct (first_with _ _ _); eauto.
  - destruct db as [st|]; [|eauto]. destruct (db_failure st); eauto.
Qed.

Lemma app_failure_changes_nothing_witness :
  app (POST_blog Sample.later Sample.hello_again) (Some Sample.store_hello)
  = (HTTPException 400 "Slug already exists", Some Sample.store_hello)
  ∧ Some Sample.store_hello = Some Sample.store_hello.
Proof.
  assert (Hrun : app (POST_blog Sample.later Sample.hello_again) (Some Sample.store_hello)
                 = (HTTPException 400 "Slug already exists", Some Sample.store_hello))
    by by_eval.
  split; [exact Hrun|].
  apply (app_failure_changes_nothing _ _ _ _ Hrun). discriminate.
Defined.

(** No request removes or alters a stored document: after any request the
    store is the one before with documents added at the end of collections,
    and a store handle that is [None] stays [None]. *)
Theorem app_append_only (req : request) (db db' : option database) (out : outcome body) :
  app req db = (out, db') →
  match db with
  | None => db' = None
  | Some st => ∃ st', db' = Some st' ∧ extends st st'
  end.
Proof.
  assert (Hsame : ∀ o st, (o, Some st) = (out, db') → ∃ st', db' = Some st' ∧ extends st st').
  { intros o st Heq. apply pair_equal_spec in Heq as [_ <-].
    eexists. split; [reflexivity|apply extends_refl]. }
  assert (Hins : ∀ o st name doc,
             (o, Some (insert_one st name doc).2) = (out, db') →
             ∃ st', db' = Some st' ∧ extends st st').
  { intros o st name doc Heq. apply pair_equal_spec in Heq as [_ <-].
    eexists. split; [reflexivity|apply extends_insert_one]. }
  assert (Hnone : ∀ o, (o, None) = (out, db') → db' = None).
  { by intros o [= _ <-]. }
  destruct req; route db.
  - destruct db; eauto.
  - destruct db as [st|]; [|eauto]. destruct (db_failure st); [eauto|].
    destruct (first_with _ _ _); eauto.
  - destruct db as [st|]; [|eauto]. destruct (db_failure st); [eauto|].
    destruct (first_with _ _ _) as [d|]; [|eauto].
    case_bool_decide; [eauto|]. destruct (d !! "_id"); eauto.
  - destruct db as [st|]; [|eauto]. destruct (db_failure st); [eauto|].
    destruct (sort_reverse _ _); eauto.
  - destruct db as [st|]; [|eauto]. destruct (db_failure st); [eauto|].
    destruct (first_with _ _ _); eauto.
  - destruct db as [st|]; [|eauto]. destruct (db_failure st); [eauto|].
    destruct (first_with _ _ _); eauto.
  - destruct db as [st|]; [|eauto]. destruct (db_failure st); eauto.
  - destruct db; eauto.
Qed.

Lemma app_append_only_witness :
  ∃ st', (app (POST_auth_signup Sample.ann) (Some Sample.store0)).2 = Some st'
         ∧ extends Sample.store0 st'.
Proof.
  destruct (app (POST_auth_signup Sample.ann) (Some Sample.store0)) as [out db'] eqn:Hrun.
  apply (app_append_only (POST_auth_signup Sample.ann) (Some Sample.store0)) in Hrun.
  exact Hrun.
Defined.

(** The HTTP errors the handlers raise: 400 from the two routes that check
    for a duplicate, 404 and 401 from signin, 404 from the post detail, each
    with its own detail text; the other routes raise none. *)
Theorem app_http_errors (req : request) (db db' : option database)
    (status_code : nat) (detail : string) :
  app req db = (HTTPException status_code detail, db') →
  match req with
  | POST_auth_signup _ => status_code = 400%nat ∧ detail = "Email already registered"
  | POST_auth_signin _ =>
      (status_code = 404%nat ∧ detail = "User not found")
      ∨ (status_code = 401%nat ∧ detail = "Invalid credentials")
  | GET_blog_slug _ => status_code = 404%nat ∧ detail = "Post not found"
  | POST_blog _ _ => status_code = 400%nat ∧ detail = "Slug already exists"
  | GET_root | GET_blog | POST_contact _ | GET_test _ => False
  end.
Proof.
  destruct req; route db.
  - discriminate.
  - destruct db as [st|]; [|discriminate]. destruct (db_failure st); [discriminate|].
    destruct (first_with _ _ _); [|discriminate]. by intros [= <- <- _].
  - destruct db as [st|]; [|discriminate]. destruct (db_failure st); [discriminate|].
    destruct (first_with _ _ _) as [d|]; [|intros [= <- <- _]; by left].
    case_bool_decide; [intros [= <- <- _]; by right|].
    destruct (d !! "_id"); discriminate.
  - destruct db as [st|]; [|discriminate]. destruct (db_failure st); [discriminate|].
    destruct (sort_reverse _ _); discriminate.
  - destruct db as [st|]; [|discriminate]. destruct (db_failure st); [discriminate|].
    destruct (first_with _ _ _); [discriminate|]. by intros [= <- <- _].
  - destruct db as [st|]; [|discriminate]. destruct (db_failure st); [discriminate|].
    destruct (first_with _ _ _); [|discriminate]. by intros [= <- <- _].
  - destruct db as [st|]; [|discriminate]. destruct (db_failure st); discriminate.
  - discriminate.
Qed.

Lemma app_http_errors_witness :
  app (POST_auth_signin Sample.ann_wrong) (Some Sample.store1)
  = (HTTPException 401 "Invalid credentials", Some Sample.store1)
  ∧ ((401%nat = 404%nat ∧ "Invalid credentials" = "User not found")
     ∨ (401%nat = 401%nat ∧ "Invalid credentials" = "Invalid credentials")).
Proof.
  assert (Hrun : app (POST_auth_signin Sample.ann_wrong) (Some Sample.store1)
                 = (HTTPException 401 "Invalid credentials", Some Sample.store1))
    by by_eval.
  split; [exact Hrun|].
  exact (app_http_errors _ _ _ _ _ Hrun).
Defined.

(** Without a store, be it that the handle is [None] or that the server
    does not answer, every route but [GET /] and [GET /test] ends in an
    exception nobody catches, not in an HTTP error of the handler. *)
Theorem app_without_store (req : request) (db : option database) :
  needs_store req = true →
  (db = None ∨ ∃ st e, db = Some st ∧ db_failure st = Some e) →
  ∃ e, app req db = (Raise e, db).
Proof.
  intros Hneeds [->|(st & e & -> & Hdown)].
  - destruct req; try discriminate Hneeds; route (@None database); eauto.
  - destruct req; try discriminate Hneeds; route (Some st); rewrite Hdown; eauto.
Qed.

Lemma app_without_store_witness :
  needs_store (GET_blog_slug "hello") = true
  ∧ ∃ e, app (GET_blog_slug "hello") None = (Raise e, None).
Proof.
  split; [reflexivity|].
  apply (app_without_store (GET_blog_slug "hello") None); [reflexivity|by left].
Defined.

(** ** What the stores the handlers build look like *)

Lemma reachable_working (st : database) : reachable st → db_failure st = None.
Proof.
  induction 1 as [name next
                 |st payload out st' _ IH Hrun
                 |st now payload out st' _ IH Hrun
                 |st payload out st' _ IH Hrun]; [done|..].
  - by apply signup_effect in Hrun as [->| ->].
  - by apply create_post_effect in Hrun as [->| ->].
  - by apply submit_contact_effect in Hrun as [->| ->].
Qed.

Lemma unique_field_snoc (k : string) (v : value) (l : list dict) (d : dict) :
  unique_field k l → first_with k v l = None → d !! k = Some v →
  unique_field k (l ++ [d]).
Proof.
  intros [Hall Hnd] Hfree Hd. apply first_with_None in Hfree. split.
  - apply Forall_app. split; [done|]. constructor; [by rewrite Hd|constructor].
  - rewrite fmap_app. apply NoDup_app. split_and!; [done| |apply NoDup_singleton].
    intros o Ho Hin. apply list_elem_of_singleton in Hin as ->.
    apply list_elem_of_fmap in Ho as (d' & Hd' & Hin).
    rewrite Forall_forall in Hfree. apply (Hfree d' Hin). by rewrite <- Hd', Hd.
Qed.

(** The checks of [signup] and [create_post] keep what they check for, as
    long as requests come one at a time: in a store built by the handlers
    every user has an email and every post a slug, and no two users share
    an email and no two posts a slug. *)
Theorem reachable_unique (st : database) :
  reachable st →
  unique_field "email" (collection st "user")
  ∧ unique_field "slug" (collection st "blogpost").
Proof.
  induction 1 as [name next
                 |st payload out st' Hst [IHu IHp] Hrun
                 |st now payload out st' Hst [IHu IHp] Hrun
                 |st payload out st' Hst [IHu IHp] Hrun].
  - unfold collection. cbn. rewrite lookup_empty. cbn.
    split; (split; [constructor|apply NoDup_nil_2]).
  - rewrite signup_run, (reachable_working _ Hst) in Hrun.
    destruct (first_with _ _ _) eqn:Hfree;
      apply pair_equal_spec in Hrun as [_ Hrun]; apply (inj Some) in Hrun as <-;
      [done|].
    rewrite collection_insert_one_eq, collection_insert_one_ne by done.
    split; [|done].
    eapply unique_field_snoc; [done|exact Hfree|].
    rewrite lookup_insert_ne by done.
    unfold model_dump, User_model. cbn [User.email user_of].
    rewrite lookup_insert_ne by done. by rewrite lookup_insert_eq.
  - rewrite create_post_run, (reachable_working _ Hst) in Hrun.
    destruct (first_with _ _ _) eqn:Hfree;
      apply pair_equal_spec in Hrun as [_ Hrun]; apply (inj Some) in Hrun as <-;
      [done|].
    rewrite collection_insert_one_eq, collection_insert_one_ne by done.
    split; [done|].
    eapply unique_field_snoc; [done|exact Hfree|].
    rewrite lookup_insert_ne by done. apply post_of_slug.
  - rewrite submit_contact_run, (reachable_working _ Hst) in Hrun.
    apply pair_equal_spec in Hrun as [_ Hrun]. apply (inj Some) in Hrun as <-.
    by rewrite !collection_insert_one_ne by done.
Qed.

Lemma reachable_unique_witness :
  reachable Sample.store1
  ∧ unique_field "email" (collection Sample.store1 "user").
Proof.
  assert (Hreach : reachable Sample.store1).
  { apply (reachable_signup Sample.store0 Sample.ann
             (Return {[ "id" := VStr "000000000000000000000001";
                        "email" := VStr "ann@example.org";
                        "name" := VStr "Ann" ]})).
    - apply reachable_empty.
    - by_eval. }
  split; [exact Hreach|].
  exact (proj1 (reachable_unique Sample.store1 Hreach)).
Defined.



(** ** More on the serialization helper *)

Lemma iso_value_fixed (v : value) : iso_value v = v ↔ ∀ t, v ≠ VDatetime t.
Proof.
  destruct v; cbn; split; try done.
  intros Hne. by destruct (Hne t).
Qed.

Lemma fmap_iso_plain (d : dict) :
  (∀ k t, d !! k ≠ Some (VDatetime t)) ↔ iso_value <$> d = d.
Proof.
  split.
  - intros Hno. apply map_eq. intros k. rewrite lookup_fmap.
    destruct (d !! k) as [v|] eqn:Hk; [|done]. cbn. f_equal.
    apply iso_value_fixed. intros t ->. by apply (Hno k t).
  - intros Hfix k t Hk.
    assert (Hk' : (iso_value <$> d) !! k = Some (VStr (isoformat t)))
      by by rewrite lookup_fmap, Hk.
    rewrite Hfix, Hk in Hk'. discriminate.
Qed.

(** The result of [serialize_doc] is plain; the plain documents are exactly
    the ones it returns as they are; so serializing twice is serializing
    once. *)
Theorem serialize_doc_plain (doc : dict) :
  plain (serialize_doc doc)
  ∧ (serialize_doc doc = doc ↔ plain doc)
  ∧ serialize_doc (serialize_doc doc) = serialize_doc doc.
Proof.
  assert (Hout : plain (serialize_doc doc)).
  { split.
    - rewrite serialize_doc_unfold, lookup_fmap.
      destruct (doc !! "_id") eqn:Hd.
      + by rewrite lookup_insert_ne, lookup_delete_eq.
      + by rewrite Hd.
    - intros k t. rewrite serialize_doc_unfold, lookup_fmap.
      destruct (_ !! k) as [[]|]; done. }
  assert (Hfix : ∀ d, plain d → serialize_doc d = d).
  { intros d [Hid Hno]. rewrite serialize_doc_unfold, Hid.
    by apply fmap_iso_plain. }
  split_and!; [done| |by apply Hfix].
  split; [|apply Hfix].
  intros Heq. by rewrite <- Heq.
Qed.

(** The field names of the result: those of the document, with [_id]
    replaced by [id] when the document has [_id]. *)
Theorem serialize_doc_dom (doc : dict) :
  dom (serialize_doc doc)
  = if decide ("_id" ∈ dom doc) then {[ "id" ]} ∪ dom doc ∖ {[ "_id" ]} else dom doc.
Proof.
  rewrite serialize_doc_unfold, dom_fmap_L.
  case_decide as Hid.
  - apply elem_of_dom in Hid as [v ->].
    by rewrite dom_insert_L, dom_delete_L.
  - apply not_elem_of_dom in Hid. by rewrite Hid.
Qed.

(** ** More on the list handler *)

Lemma lt_None_r (a : value) : lt a VNone = None.
Proof. by destruct a. Qed.

(** One key that is [None] among two or more makes the sort raise. *)
Lemma sort_reverse_None_key (key : dict → value) (l : list dict) :
  Exists (λ d, key d = VNone) l → (2 ≤ List.length l)%nat →
  sort_reverse key l = None.
Proof.
  induction l as [|x xs IH]; intros Hex Hlen; [cbn in Hlen; lia|].
  cbn [sort_reverse].
  destruct (sort_reverse key xs) as [l''|] eqn:Hsort; [|done]. cbn.
  pose proof (sort_reverse_perm _ _ _ Hsort) as Hperm.
  destruct l'' as [|y ys].
  { apply Permutation_nil_l in Hperm. subst xs. cbn in Hlen. lia. }
  cbn [insert_reverse].
  apply Exists_cons in Hex as [Hx|Hxs].
  { by rewrite Hx. }
  destruct (decide (2 ≤ List.length xs)%nat) as [Hlen'|Hlen'].
  { specialize (IH Hxs Hlen'). congruence. }
  destruct xs as [|z [|z' xs]]; [by apply Exists_nil in Hxs| |cbn in Hlen'; lia].
  apply Exists_cons in Hxs as [Hz|Hnil]; [|by apply Exists_nil in Hnil].
  cbn in Hsort. injection Hsort as <- <-.
  by rewrite Hz, lt_None_r.
Qed.

(** With at most one published post nothing is compared, and the list
    handler returns that post, serialized, whatever its fields are. *)
Theorem list_posts_at_most_one (st : database) :
  db_failure st = None →
  (List.length (published_posts st) ≤ 1)%nat →
  list_posts (Some st) = (Return (serialize_doc <$> published_posts st), Some st).
Proof.
  intros Hup Hlen. rewrite list_posts_run by done.
  destruct (published_posts st) as [|d [|d' l]]; [done|done|cbn in Hlen; lia].
Qed.

Lemma list_posts_at_most_one_witness :
  list_posts (Some Sample.store_hello)
  = (Return [serialize_doc Sample.hello_doc], Some Sample.store_hello).
Proof.
  assert (Hpub : published_posts Sample.store_hello = [Sample.hello_doc]) by by_eval.
  rewrite <- (list_fmap_singleton serialize_doc), <- Hpub.
  apply (list_posts_at_most_one Sample.store_hello); [reflexivity|].
  rewrite Hpub. cbn. lia.
Defined.

(** With two or more published posts, one of which has no timestamp in
    [published_at] nor in [created_at], the keys do not compare: the list
    handler raises a [TypeError] that nobody catches. *)
Theorem list_posts_missing_timestamp (st : database) :
  db_failure st = None →
  (2 ≤ List.length (published_posts st))%nat →
  Exists (λ d, sort_key d = VNone) (published_posts st) →
  list_posts (Some st) = (Raise "TypeError", Some st).
Proof.
  intros Hup Hlen Hex. rewrite list_posts_run by done.
  by rewrite sort_reverse_None_key.
Qed.

Lemma list_posts_missing_timestamp_witness :
  list_posts (Some Sample.store_bare) = (Raise "TypeError", Some Sample.store_bare).
Proof.
  assert (Hpub : published_posts Sample.store_bare = [Sample.hello_doc; Sample.bare_doc])
    by by_eval.
  apply (list_posts_missing_timestamp Sample.store_bare); [reflexivity| |]; rewrite Hpub.
  - cbn. lia.
  - apply Exists_cons_tl, Exists_cons_hd. by_eval.
Defined.

(** ** Create, then read *)





(** A post created published shows in the list: on a store whose published
    posts all have a timestamp, the list after [create_post] with a free
    slug and [published] true has one entry more than the published posts
    before and the new post is among the entries. *)
Theorem create_post_then_list_posts (st : database) (now : datetime)
    (payload : CreatePostPayload.t) :
  db_failure st = None →
  Forall (λ d : dict, d !! "slug" ≠ Some (VStr (CreatePostPayload.slug payload)))
    (collection st "blogpost") →
  timed sort_key (published_posts st) →
  CreatePostPayload.published payload = true →
  let doc := <["_id" := VObjectId (db_next_id st)]> (model_dump (post_of now payload)) in
  ∃ st' out l,
    create_post now payload (Some st) = (Return out, Some st')
    ∧ list_posts (Some st') = (Return l, Some st')
    ∧ serialize_doc doc ∈ l
    ∧ List.length l = S (List.length (published_posts st)).
Proof.
  intros Hup Hfree Htimed Hpub doc.
  exists (insert_one st "blogpost" (model_dump (post_of now payload))).2.
  pose proof (create_post_keeps_timed st now payload Htimed) as Htimed'.
  destruct (sort_reverse_timed sort_key _ Htimed') as [posts Hsort].
  pose proof (sort_reverse_perm _ _ _ Hsort) as Hperm.
  rewrite published_posts_insert_one_published in Hperm
    by (by rewrite post_of_published, Hpub).
  eexists _, (serialize_doc <$> posts). split_and!.
  - by apply create_post_fresh.
  - rewrite list_posts_run by done. by rewrite Hsort.
  - apply list_elem_of_fmap_2. rewrite Hperm. set_solver.
  - rewrite length_fmap, Hperm, length_app. cbn. lia.
Qed.

Lemma create_post_then_list_posts_witness :
  ∃ st' l,
    (create_post Sample.later Sample.hello (Some Sample.store0)).2 = Some st'
    ∧ list_posts (Some st') = (Return l, Some st')
    ∧ List.length l = 1%nat.
Proof.
  destruct (create_post_then_list_posts Sample.store0 Sample.later Sample.hello eq_refl)
    as (st' & out & l & Hcreate & Hlist & _ & Hlen);
    [by_decide|constructor|reflexivity|].
  exists st', l. rewrite Hcreate. split_and!; [done|done|exact Hlen].
Defined.

(** ** More on the health check *)

Lemma Return_eq {A} (a b : A) (s t : option database) :
  (Return a, s) = (Return b, t) → a = b.
Proof. congruence. Qed.

(** The two configuration fields of the diagnostic object tell only whether
    [DATABASE_URL] and [DATABASE_NAME] are set to something not empty: what
    the handler wrote there before, the name of the database among it, is
    overwritten. The object has the same six fields whatever the store is. *)
Theorem test_database_env_fields (getenv : string → option string)
    (db db' : option database) (response : dict) :
  test_database getenv db = (Return response, db') →
  response !! "database_url"
  = Some (VStr (if env_set getenv "DATABASE_URL" then "✅ Set" else "❌ Not Set"))
  ∧ response !! "database_name"
    = Some (VStr (if env_set getenv "DATABASE_NAME" then "✅ Set" else "❌ Not Set"))
  ∧ dom response
    = {[ "backend"; "database"; "database_url"; "database_name";
         "connection_status"; "collections" ]}.
Proof.
  unfold test_database. destruct db as [st|].
  - destruct (list_collection_names st) as [e|collections];
      cbn [stmts foldr seq assign try_except];
      intros Hrun; apply Return_eq in Hrun as <-;
      split_and!; by_eval.
  - cbn [stmts foldr seq assign try_except].
    intros Hrun; apply Return_eq in Hrun as <-.
    split_and!; by_eval.
Qed.

Lemma test_database_env_fields_witness :
  ∃ response,
    test_database (λ name, if bool_decide (name = "DATABASE_URL")
                           then Some "mongodb://db" else None)
      (Some Sample.store1) = (Return response, Some Sample.store1)
    ∧ response !! "database_url" = Some (VStr "✅ Set")
    ∧ response !! "database_name" = Some (VStr "❌ Not Set").
Proof.
  destruct (test_database_returns
              (λ name, if bool_decide (name = "DATABASE_URL")
                       then Some "mongodb://db" else None)
              (Some Sample.store1)) as [response Hrun].
  exists response. split; [exact Hrun|].
  destruct (test_database_env_fields _ _ _ _ Hrun) as (Hurl & Hname & _).
  split; [exact Hurl|exact Hname].
Defined.

(** ** What the auth handlers answer with *)

(** The object [signup] and [signin] return has the three fields [id],
    [email] and [name] and no other: the stored hash and salt never leave
    through these routes. *)
Theorem auth_response_fields (up : SignUpPayload.t) (inp : SignInPayload.t)
    (db db' : option database) (d : dict) :
  signup up db = (Return d, db') ∨ signin inp db = (Return d, db') →
  dom d = {[ "id"; "email"; "name" ]}.
Proof.
  intros [Hrun|Hrun].
  - rewrite signup_run in Hrun.
    destruct db as [st|]; [|discriminate]. destruct (db_failure st); [discriminate|].
    destruct (first_with _ _ _); [discriminate|].
    apply Return_eq in Hrun as <-.
    rewrite !dom_insert_L, dom_singleton_L. set_solver.
  - rewrite signin_run in Hrun.
    destruct db as [st|]; [|discriminate]. destruct (db_failure st); [discriminate|].
    destruct (first_with _ _ _) as [doc|]; [|discriminate].
    case_bool_decide; [discriminate|].
    destruct (doc !! "_id"); [|discriminate].
    apply Return_eq in Hrun as <-.
    rewrite !dom_insert_L, dom_singleton_L. set_solver.
Qed.

Lemma auth_response_fields_witness :
  ∃ d, signin Sample.ann_signin (Some Sample.store1) = (Return d, Some Sample.store1)
       ∧ dom d = {[ "id"; "email"; "name" ]}.
Proof.
  assert (Hrun : signin Sample.ann_signin (Some Sample.store1)
                 = (Return {[ "id" := VStr "000000000000000000000001";
                              "email" := VStr "ann@example.org";
                              "name" := VStr "Ann" ]}, Some Sample.store1)) by by_eval.
  eexists. split; [exact Hrun|].
  apply (auth_response_fields Sample.ann Sample.ann_signin
           (Some Sample.store1) (Some Sample.store1)).
  right. exact Hrun.
Defined.

(** ** Contact form *)

(** On a working store [submit_contact] always answers "received" with the
    new identifier and appends the message to [contactmessage], touching no
    other collection. Nothing is checked before the insert: the same payload
    once more is stored once more, under the next identifier. *)
Theorem submit_contact_received (st : database) (payload : ContactPayload.t) :
  db_failure st = None →
  let doc n := <["_id" := VObjectId n]> (model_dump (message_of payload)) in
  ∃ st' st'',
    submit_contact payload (Some st)
    = (Return {[ "id" := VStr (str (VObjectId (db_next_id st)));
                 "status" := VStr "received" ]}, Some st')
    ∧ collection st' "contactmessage"
      = collection st "contactmessage" ++ [doc (db_next_id st)]
    ∧ (∀ name, name ≠ "contactmessage" → collection st' name = collection st name)
    ∧ submit_contact payload (Some st')
      = (Return {[ "id" := VStr (str (VObjectId (db_next_id st + 1)));
                   "status" := VStr "received" ]}, Some st'')
    ∧ collection st'' "contactmessage"
      = collection st "contactmessage" ++ [doc (db_next_id st); doc (db_next_id st + 1)].
Proof.
  intros Hup doc.
  exists (insert_one st "contactmessage" (model_dump (message_of payload))).2,
         (insert_one (insert_one st "contactmessage" (model_dump (message_of payload))).2
            "contactmessage" (model_dump (message_of payload))).2.
  rewrite (submit_contact_run payload (Some st)), Hup.
  rewrite (submit_contact_run payload (Some (insert_one st _ _).2)).
  rewrite db_failure_insert_one, Hup.
  split_and!; [done| | |done|].
  - apply collection_insert_one_eq.
  - intros name Hne. by apply collection_insert_one_ne.
  - rewrite (collection_insert_one_eq
               (insert_one st "contactmessage" (model_dump (message_of payload))).2).
    rewrite collection_insert_one_eq, <- app_assoc. done.
Qed.

Lemma submit_contact_received_witness :
  ∃ st', submit_contact Sample.contact (Some Sample.store1)
         = (Return {[ "id" := VStr "000000000000000000000002";
                      "status" := VStr "received" ]}, Some st')
         ∧ collection st' "user" = [Sample.ann_doc].
Proof.
  destruct (submit_contact_received Sample.store1 Sample.contact eq_refl)
    as (st' & _ & Hrun & _ & Hother & _).
  exists st'. split; [exact Hrun|].
  rewrite Hother by discriminate. by_eval.
Defined.

(** ** One request after the other *)

Lemma first_with_snoc (k : string) (v : value) (l : list dict) (d : dict) :
  d !! k = Some v → is_Some (first_with k v (l ++ [d])).
Proof.
  intros Hd. unfold first_with. rewrite filter_app.
  destruct (filter _ l) as [|d' l'] eqn:Hl; [|by eexists].
  rewrite filter_cons_True by done. by eexists.
Qed.

(** Once a signup went through, every later signup with the same email is
    answered with the 400 conflict, whatever its other fields are and
    whatever other requests came in between, and leaves the store alone. *)
Theorem signup_again_conflicts (st st1 st2 : database) (up up' : SignUpPayload.t)
    (d : dict) :
  signup up (Some st) = (Return d, Some st1) →
  extends st1 st2 →
  SignUpPayload.email up' = SignUpPayload.email up →
  signup up' (Some st2) = (HTTPException 400 "Email already registered", Some st2).
Proof.
  intros Hrun (_ & Hup2 & _ & Hprefix) Hemail.
  rewrite signup_run in Hrun. rewrite signup_run.
  destruct (db_failure st) eqn:Hup; [discriminate|].
  destruct (first_with _ _ (collection st "user")); [discriminate|].
  apply pair_equal_spec in Hrun as [_ Hrun]. apply (inj Some) in Hrun as <-.
  rewrite Hup2, db_failure_insert_one, Hup.
  destruct (Hprefix "user") as [more ->].
  rewrite collection_insert_one_eq, Hemail.
  unfold first_with. rewrite filter_app.
  destruct (first_with_snoc "email" (VStr (SignUpPayload.email up)) (collection st "user")
              (<["_id" := VObjectId (db_next_id st)]> (model_dump (user_of up))))
    as [d' Hd'].
  { rewrite lookup_insert_ne by done. unfold model_dump, User_model.
    cbn [user_of User.email]. rewrite lookup_insert_ne by done.
    by rewrite lookup_insert_eq. }
  unfold first_with in Hd'.
  destruct (filter _ (collection st "user" ++ _)); [discriminate|done].
Qed.

Lemma signup_again_conflicts_witness :
  signup Sample.ann (Some Sample.store0)
  = (Return {[ "id" := VStr "000000000000000000000001";
               "email" := VStr "ann@example.org";
               "name" := VStr "Ann" ]}, Some Sample.store1)
  ∧ signup Sample.ann_again (Some Sample.store1)
    = (HTTPException 400 "Email already registered", Some Sample.store1).
Proof.
  assert (Hrun : signup Sample.ann (Some Sample.store0)
                 = (Return {[ "id" := VStr "000000000000000000000001";
                              "email" := VStr "ann@example.org";
                              "name" := VStr "Ann" ]}, Some Sample.store1)) by by_eval.
  split; [exact Hrun|].
  apply (signup_again_conflicts _ _ _ _ _ _ Hrun); [apply extends_refl|reflexivity].
Defined.

(** Once a post was created, every later [create_post] with the same slug is
    answered with the 400 conflict, published or not, and leaves the store
    alone. *)
Theorem create_post_again_conflicts (st st1 st2 : database) (now now' : datetime)
    (payload payload' : CreatePostPayload.t) (d : dict) :
  create_post now payload (Some st) = (Return d, Some st1) →
  extends st1 st2 →
  CreatePostPayload.slug payload' = CreatePostPayload.slug payload →
  create_post now' payload' (Some st2) = (HTTPException 400 "Slug already exists", Some st2).
Proof.
  intros Hrun (_ & Hup2 & _ & Hprefix) Hslug.
  rewrite create_post_run in Hrun. rewrite create_post_run.
  destruct (db_failure st) eqn:Hup; [discriminate|].
  destruct (first_with _ _ (collection st "blogpost")); [discriminate|].
  apply pair_equal_spec in Hrun as [_ Hrun]. apply (inj Some) in Hrun as <-.
  rewrite Hup2, db_failure_insert_one, Hup.
  destruct (Hprefix "blogpost") as [more ->].
  rewrite collection_insert_one_eq, Hslug.
  unfold first_with. rewrite filter_app.
  destruct (first_with_snoc "slug" (VStr (CreatePostPayload.slug payload))
              (collection st "blogpost")
              (<["_id" := VObjectId (db_next_id st)]> (model_dump (post_of now payload))))
    as [d' Hd'].
  { rewrite lookup_insert_ne by done. apply post_of_slug. }
  unfold first_with in Hd'.
  destruct (filter _ (collection st "blogpost" ++ _)); [discriminate|done].
Qed.

Lemma create_post_again_conflicts_witness :
  ∃ d st1,
    create_post Sample.noon Sample.hello (Some Sample.store0) = (Return d, Some st1)
    ∧ create_post Sample.later Sample.hello_again (Some st1)
      = (HTTPException 400 "Slug already exists", Some st1).
Proof.
  destruct (create_post Sample.noon Sample.hello (Some Sample.store0)) as [out db1] eqn:Hrun.
  assert (Hout : ∃ d st1, out = Return d ∧ db1 = Some st1).
  { rewrite create_post_run in Hrun.
    apply pair_equal_spec in Hrun as [<- <-]. eauto. }
  destruct Hout as (d & st1 & -> & ->).
  exists d, st1. split; [reflexivity|].
  apply (create_post_again_conflicts _ _ _ _ _ _ _ _ Hrun);
    [apply extends_refl|reflexivity].
Defined.
